(** * pyRecorderApp: the capture / buffer / flush engine of [audiomodel.py]

    A shallow embedding of class [AudioRecorder] (src/audiomodel.py) and the
    properties of its block queue, fusion, disk writer and start/stop
    life cycle.

    Conventions of the embedding
    - Python [int] is [Z] (unbounded); counters that only count up from 0
      ([_partition_ctr], array extents) are [nat].
    - Python [float] is IEEE binary64, i.e. Rocq's primitive [float];
      [float32] samples are carried as the binary64 value they denote.
    - A method is a function from the recorder object and the outside world
      (files, console) to an outcome and the new object and world.  A raised
      exception keeps every mutation made before the [raise].
    - The driver thread, the memory thread and the timer are interleaved at the
      granularity of whole method calls: [_record_callback], [_manage_record]
      and [stop_recording] are the atomic steps.  Neither [_record_callback]
      nor [_manage_record] reads [_rec], so a call of one of them that overlaps
      [stop_recording] before the stream is stopped / the thread is joined is
      the same as that call happening just before [stop_recording]. *)

From Stdlib Require Import ZArith List String Ascii Floats Lia.
From stdpp Require Import gmap strings list pretty.
Import ListNotations.

Local Open Scope string_scope.
Local Open Scope Z_scope.

(** ** Python values used by the recorder *)

Module Py.

(** [str.casefold] on ASCII letters (the supported-format keys and file
    suffixes are ASCII; other bytes are left unchanged). *)
Definition casefold_ascii (c : ascii) : ascii :=
  let n := nat_of_ascii c in
  if (Nat.leb 65 n && Nat.leb n 90)%bool then ascii_of_nat (n + 32) else c.

Fixpoint casefold (s : string) : string :=
  match s with
  | EmptyString => EmptyString
  | String c s' => String (casefold_ascii c) (casefold s')
  end.

(** [s.split(sep)] for a one-character separator: never the empty list. *)
Fixpoint split (sep : ascii) (s : string) : list string :=
  match s with
  | EmptyString => [EmptyString]
  | String c s' =>
      if Ascii.eqb c sep then EmptyString :: split sep s'
      else match split sep s' with
           | [] => [String c EmptyString]
           | hd :: tl => String c hd :: tl
           end
  end.

(** [l[-1]] on a list of strings known to be non-empty. *)
Definition last_item (l : list string) : string := List.last l EmptyString.

(** ['{}'.format(n)] for a non-negative [int]: its decimal digits. *)
Definition format_int (n : nat) : string := pretty n.

(** Exceptions that the recorder's code paths can raise or catch.
    [LibraryError] stands for an exception raised inside numpy or
    soundfile on an argument they reject. *)
Inductive exn : Type :=
| KeyError (key : string)
| IOError (msg : string)
| ValueError (msg : string)
| AttributeError (attr : string)
| QueueEmpty
| LibraryError (origin : string).

Inductive result (A : Type) : Type :=
| Ok (a : A)
| Raise (e : exn).
Arguments Ok {A} a.
Arguments Raise {A} e.

Definition is_ok {A} (r : result A) : bool :=
  match r with Ok _ => true | Raise _ => false end.

(** A number returned by a query: [get_rec_time] returns the float
    [_rectime] or the int [-1]. *)
Inductive num : Type :=
| PyInt (z : Z)
| PyFloat (f : float).

(** [int * float]: the int is converted to the nearest binary64 first. *)
Definition float_of_int (z : Z) : float :=
  if z <? 0 then PrimFloat.opp (PrimFloat.of_uint63 (Uint63.of_Z (- z)))
  else PrimFloat.of_uint63 (Uint63.of_Z z).

(** [int(f)]: truncation toward zero; [None] where Python raises
    (infinities and NaN). *)
Definition int_of_float (f : float) : option Z :=
  match Prim2SF f with
  | S754_zero _ => Some 0
  | S754_finite s m e =>
      let mag := Z.shiftl (Z.pos m) e in
      Some (if s then - mag else mag)
  | S754_infinity _ => None
  | S754_nan => None
  end.

End Py.
Export Py.

(** ** numpy arrays of shape (frames, channels) *)

Module Np.

Definition sample := float.

(** A two-dimensional [ndarray]: its shape and its rows (one row per frame,
    one column per channel). *)
Record ndarray : Type := mk_ndarray {
  shape0 : nat;
  shape1 : nat;
  rows : list (list sample)
}.

(** The rows agree with the declared shape. *)
Definition well_formed (a : ndarray) : Prop :=
  length (rows a) = shape0 a /\
  Forall (fun r => length r = shape1 a) (rows a).

Definition zero_row (cols : nat) : list sample := repeat 0%float cols.

(** [np.zeros((n, cols), dtype=np.float32)] *)
Definition zeros (n cols : nat) : ndarray :=
  {| shape0 := n; shape1 := cols; rows := repeat (zero_row cols) n |}.

(** [a.copy()]: a fresh array with the same shape and contents. *)
Definition copy (a : ndarray) : ndarray :=
  {| shape0 := shape0 a; shape1 := shape1 a; rows := rows a |}.

(** [a.nbytes] for [float32] items. *)
Definition itemsize : Z := 4.
Definition nbytes (a : ndarray) : Z :=
  Z.of_nat (shape0 a) * Z.of_nat (shape1 a) * itemsize.

(** Broadcasting one axis: an extent of 1 stretches, equal extents match,
    anything else is a shape error. *)
Definition broadcast_axis {A} (want : nat) (l : list A) : option (list A) :=
  if Nat.eqb (length l) want then Some l
  else match l with
       | [x] => Some (repeat x want)
       | _ => None
       end.

Fixpoint broadcast_cols (want : nat) (rs : list (list sample))
  : option (list (list sample)) :=
  match rs with
  | [] => Some []
  | r :: rs' =>
      match broadcast_axis want r, broadcast_cols want rs' with
      | Some r', Some rs'' => Some (r' :: rs'')
      | _, _ => None
      end
  end.

(** The value [v] broadcast to the shape [(want_rows, want_cols)], or [None]
    where numpy raises "could not broadcast input array". *)
Definition broadcast_to (want_rows want_cols : nat) (v : ndarray)
  : option (list (list sample)) :=
  if (Nat.eqb (shape1 v) want_cols || Nat.eqb (shape1 v) 1)%bool then
    match broadcast_cols want_cols (rows v) with
    | Some rs => broadcast_axis want_rows rs
    | None => None
    end
  else None.

(** [a[start:stop, :] = v] with non-negative bounds: the slice is clipped to
    the array, [v] is broadcast to the slice's shape, and the rows are
    replaced in place. *)
Definition setitem_rows (a : ndarray) (start stop : nat) (v : ndarray)
  : result ndarray :=
  let lo := Nat.min start (shape0 a) in
  let hi := Nat.max lo (Nat.min stop (shape0 a)) in
  match broadcast_to (hi - lo) (shape1 a) v with
  | Some new_rows =>
      Ok {| shape0 := shape0 a; shape1 := shape1 a;
            rows := firstn lo (rows a) ++ new_rows ++ skipn hi (rows a) |}
  | None => Raise (ValueError "could not broadcast input array")
  end.

End Np.
Export Np.

(** ** pathlib paths, observed through [parent], [stem] and [suffix] *)

Module Pathlib.

(** A [Path]: [str(p.parent)], [p.stem] and [p.suffix] (empty, or a dot
    followed by the extension).  [p.name] is [stem + suffix]. *)
Record path : Type := mk_path {
  parent : string;
  stem : string;
  suffix : string
}.

Definition name (p : path) : string := stem p ++ suffix p.

Definition ends_with_slash (s : string) : bool :=
  match List.last (list_ascii_of_string s) "x"%char with
  | "/"%char => true
  | _ => false
  end.

(** [str(p)]: the parent joined to the name with exactly one separator;
    a parent of [.] is not printed. *)
Definition join (dir file : string) : string :=
  if String.eqb file "" then dir
  else if String.eqb dir "." then file
  else if ends_with_slash dir then dir ++ file
  else dir ++ "/" ++ file.

Definition str (p : path) : string := join (parent p) (name p).

(** [p.with_suffix(s)]: rejected on a path whose name is empty. *)
Definition with_suffix (p : path) (s : string) : result path :=
  if String.eqb (name p) "" then Raise (ValueError "path has an empty name")
  else Ok {| parent := parent p; stem := stem p; suffix := s |}.

End Pathlib.
Export Pathlib.

(** ** The world outside the recorder: sound files and the console *)

Module World.

(** A sound file on disk: container format, sample rate and frames. *)
Record soundfile : Type := mk_soundfile {
  sf_format : string;
  sf_samplerate : Z;
  sf_frames : list (list sample)
}.

(** What the recorder prints, warns about, and asks of soundfile. *)
Inductive event : Type :=
| PrintStatus (status : Z)
| PrintExn (e : exn)
| PrintDevice
| Warn (msg : string)
| SfWrite (file : string) (format : string)
| SfAppend (file : string).

Record world : Type := mk_world {
  files : gmap string soundfile;
  console : list event
}.

Definition is_file (w : world) (p : path) : bool :=
  bool_decide (is_Some (files w !! str p)).

Definition emit_event (e : event) (w : world) : world :=
  {| files := files w; console := console w ++ [e] |}.

(** [sf.write(file, data, samplerate, format=fmt)]: creates the file or
    truncates an existing one and writes [data]; [data = None] is rejected
    before any file is opened. *)
Definition sf_write (file : string) (data : option ndarray) (samplerate : Z)
    (fmt : string) (w : world) : result unit * world :=
  match data with
  | None => (Raise (LibraryError "soundfile.write"), w)
  | Some a =>
      (Ok tt,
       {| files := <[file := {| sf_format := fmt; sf_samplerate := samplerate;
                                 sf_frames := rows a |}]> (files w);
          console := console w ++ [SfWrite file fmt] |})
  end.

(** [with sf.SoundFile(file, mode='r+') as f: f.seek(0, SEEK_END);
    f.write(data)]: the frames are added at the end of an existing file. *)
Definition sf_append (file : string) (data : option ndarray) (w : world)
  : result unit * world :=
  match files w !! file with
  | None => (Raise (LibraryError "soundfile.SoundFile"), w)
  | Some f =>
      match data with
      | None => (Raise (LibraryError "SoundFile.write"), w)
      | Some a =>
          (Ok tt,
           {| files := <[file := {| sf_format := sf_format f;
                                     sf_samplerate := sf_samplerate f;
                                     sf_frames := sf_frames f ++ rows a |}]>
                         (files w);
              console := console w ++ [SfAppend file] |})
      end
  end.

End World.
Export World.

(** ** The recorder object *)

Module Recorder.

Record thread : Type := mk_thread {
  thread_daemon : bool;
  thread_started : bool
}.

Record timer : Type := mk_timer {
  timer_interval : float;
  timer_daemon : bool;
  timer_started : bool;
  timer_cancelled : bool
}.

Record stream : Type := mk_stream {
  stream_playback : bool;
  stream_active : bool
}.

(** An attribute that [__init__] assigns only on one branch. *)
Inductive attribute (A : Type) : Type :=
| Unset
| Bound (a : A).
Arguments Unset {A}.
Arguments Bound {A} a.

(** The instance attributes of [AudioRecorder]. *)
Record AudioRecorder : Type := mk_AudioRecorder {
  _samplerate : Z;
  _soundblock_q : list ndarray;
  _channels : nat;
  _block_length : float;
  _block_size : nat;
  _playback : bool;
  max_memory : Z;
  _mem_size : Z;
  _memory_thread : attribute (option thread);
  _stop_timer_thread : option timer;
  _partition : bool;
  _partition_ctr : nat;
  filepath : option path;
  _input_stream : option stream;
  _rec : bool;
  _rectime : float;
  _prev_ab : option ndarray
}.

(** [self._default_fformat = ['wav', 'WAV']] *)
Definition _default_fformat : string * string := ("wav", "WAV").

Definition set_soundblock_q (v : list ndarray) (s : AudioRecorder) :=
  mk_AudioRecorder (_samplerate s) v (_channels s) (_block_length s)
    (_block_size s) (_playback s) (max_memory s) (_mem_size s)
    (_memory_thread s) (_stop_timer_thread s) (_partition s)
    (_partition_ctr s) (filepath s) (_input_stream s) (_rec s) (_rectime s)
    (_prev_ab s).

Definition set_mem_size (v : Z) (s : AudioRecorder) :=
  mk_AudioRecorder (_samplerate s) (_soundblock_q s) (_channels s)
    (_block_length s) (_block_size s) (_playback s) (max_memory s) v
    (_memory_thread s) (_stop_timer_thread s) (_partition s)
    (_partition_ctr s) (filepath s) (_input_stream s) (_rec s) (_rectime s)
    (_prev_ab s).

Definition set_memory_thread (v : attribute (option thread))
    (s : AudioRecorder) :=
  mk_AudioRecorder (_samplerate s) (_soundblock_q s) (_channels s)
    (_block_length s) (_block_size s) (_playback s) (max_memory s)
    (_mem_size s) v (_stop_timer_thread s) (_partition s)
    (_partition_ctr s) (filepath s) (_input_stream s) (_rec s) (_rectime s)
    (_prev_ab s).

Definition set_stop_timer_thread (v : option timer) (s : AudioRecorder) :=
  mk_AudioRecorder (_samplerate s) (_soundblock_q s) (_channels s)
    (_block_length s) (_block_size s) (_playback s) (max_memory s)
    (_mem_size s) (_memory_thread s) v (_partition s)
    (_partition_ctr s) (filepath s) (_input_stream s) (_rec s) (_rectime s)
    (_prev_ab s).

Definition set_partition_ctr (v : nat) (s : AudioRecorder) :=
  mk_AudioRecorder (_samplerate s) (_soundblock_q s) (_channels s)
    (_block_length s) (_block_size s) (_playback s) (max_memory s)
    (_mem_size s) (_memory_thread s) (_stop_timer_thread s) (_partition s)
    v (filepath s) (_input_stream s) (_rec s) (_rectime s) (_prev_ab s).

Definition set_filepath (v : option path) (s : AudioRecorder) :=
  mk_AudioRecorder (_samplerate s) (_soundblock_q s) (_channels s)
    (_block_length s) (_block_size s) (_playback s) (max_memory s)
    (_mem_size s) (_memory_thread s) (_stop_timer_thread s) (_partition s)
    (_partition_ctr s) v (_input_stream s) (_rec s) (_rectime s)
    (_prev_ab s).

Definition set_input_stream (v : option stream) (s : AudioRecorder) :=
  mk_AudioRecorder (_samplerate s) (_soundblock_q s) (_channels s)
    (_block_length s) (_block_size s) (_playback s) (max_memory s)
    (_mem_size s) (_memory_thread s) (_stop_timer_thread s) (_partition s)
    (_partition_ctr s) (filepath s) v (_rec s) (_rectime s) (_prev_ab s).

Definition set_rec (v : bool) (s : AudioRecorder) :=
  mk_AudioRecorder (_samplerate s) (_soundblock_q s) (_channels s)
    (_block_length s) (_block_size s) (_playback s) (max_memory s)
    (_mem_size s) (_memory_thread s) (_stop_timer_thread s) (_partition s)
    (_partition_ctr s) (filepath s) (_input_stream s) v (_rectime s)
    (_prev_ab s).

Definition set_rectime (v : float) (s : AudioRecorder) :=
  mk_AudioRecorder (_samplerate s) (_soundblock_q s) (_channels s)
    (_block_length s) (_block_size s) (_playback s) (max_memory s)
    (_mem_size s) (_memory_thread s) (_stop_timer_thread s) (_partition s)
    (_partition_ctr s) (filepath s) (_input_stream s) (_rec s) v
    (_prev_ab s).

Definition set_prev_ab (v : option ndarray) (s : AudioRecorder) :=
  mk_AudioRecorder (_samplerate s) (_soundblock_q s) (_channels s)
    (_block_length s) (_block_size s) (_playback s) (max_memory s)
    (_mem_size s) (_memory_thread s) (_stop_timer_thread s) (_partition s)
    (_partition_ctr s) (filepath s) (_input_stream s) (_rec s) (_rectime s)
    v.

(** *** Methods as state transformers that may raise *)

Definition M (A : Type) : Type :=
  AudioRecorder -> world -> result A * AudioRecorder * world.

Definition ret {A} (a : A) : M A := fun self w => (Ok a, self, w).

Definition raise {A} (e : exn) : M A := fun self w => (Raise e, self, w).

Definition bind {A B} (m : M A) (k : A -> M B) : M B :=
  fun self w =>
    match m self w with
    | (Ok a, self', w') => k a self' w'
    | (Raise e, self', w') => (Raise e, self', w')
    end.

(** [try: m  except Exception as e: h e] *)
Definition try_except {A} (m : M A) (h : exn -> M A) : M A :=
  fun self w =>
    match m self w with
    | (Ok a, self', w') => (Ok a, self', w')
    | (Raise e, self', w') => h e self' w'
    end.

Definition read {A} (f : AudioRecorder -> A) : M A :=
  fun self w => (Ok (f self), self, w).

Definition assign (f : AudioRecorder -> AudioRecorder) : M unit :=
  fun self w => (Ok tt, f self, w).

Definition emit (e : event) : M unit :=
  fun self w => (Ok tt, self, emit_event e w).

Definition ask_world {A} (f : world -> A) : M A :=
  fun self w => (Ok (f w), self, w).

Definition lift_world {A} (f : world -> result A * world) : M A :=
  fun self w => let '(r, w') := f w in (r, self, w').

Definition lift_result {A} (r : result A) : M A :=
  fun self w => (r, self, w).

Definition when (b : bool) (m : M unit) : M unit :=
  if b then m else ret tt.

(** The outcome of a call, and the object and the world after it (whether
    it returned or raised). *)
Definition outcome {A} (m : M A) (self : AudioRecorder) (w : world)
  : result A := fst (fst (m self w)).

Definition after {A} (m : M A) (self : AudioRecorder) (w : world)
  : AudioRecorder * world := (snd (fst (m self w)), snd (m self w)).

(** A method keeps an observation [f] of the object: whatever the outcome,
    [f] reads the same afterwards. *)
Definition keeps {A B} (f : AudioRecorder -> B) (m : M A) : Prop :=
  forall self w, f (fst (after m self w)) = f self.

End Recorder.
Export Recorder.

Notation "'let*' x ':=' m 'in' k" := (bind m (fun x => k))
  (at level 10, x name, m at level 100, k at level 200).
Notation "m ';;;' k" := (bind m (fun _ => k))
  (at level 100, k at level 200, right associativity).

(** Expose the state passing behind the monad's operations. *)
Ltac unfold_monad :=
  unfold bind, ret, raise, read, assign, emit, ask_world, lift_world,
    lift_result, when, try_except.

(** ** The methods of [AudioRecorder] *)

(** Facts of the Python runtime and of the installed libsndfile that the
    methods read: [sys.getsizeof] of the queue object (it does not depend on
    the queue's contents) and of an array object, and the keys of
    [sf.available_formats()] in iteration order. *)
Record runtime : Type := mk_runtime {
  getsizeof_queue : Z;
  getsizeof_array : ndarray -> Z;
  available_formats : list string
}.

(** The entry of [sd.query_devices(device_id, 'input')] that [__init__]
    reads. *)
Record inputdevice : Type := mk_inputdevice {
  default_samplerate : float;
  max_input_channels : Z
}.

Section Methods.

Variable rt : runtime.

(** [__init__], given the resolved input device.  [int()] of a
    non-finite float raises.  Block lengths are taken non-negative. *)
Definition init (dev : inputdevice) (block_len : float) (max_memeory : Z)
    (partition playback : bool) : result AudioRecorder :=
  match int_of_float (default_samplerate dev) with
  | None => Raise (ValueError "cannot convert float to integer")
  | Some samplerate =>
      match int_of_float (float_of_int samplerate * block_len)%float with
      | None => Raise (ValueError "cannot convert float to integer")
      | Some block_size =>
          Ok {| _samplerate := samplerate;
                _soundblock_q := [];
                _channels := Z.to_nat (Z.min (max_input_channels dev) 1);
                _block_length := block_len;
                _block_size := Z.to_nat block_size;
                _playback := playback;
                max_memory := max_memeory;
                _mem_size := getsizeof_queue rt;
                _memory_thread :=
                  if 0 <=? max_memeory then Bound None else Unset;
                _stop_timer_thread := None;
                _partition := partition;
                _partition_ctr := 0%nat;
                filepath := None;
                _input_stream := None;
                _rec := false;
                _rectime := 0%float;
                _prev_ab := None |}
      end
  end.

(** The five bookkeeping statements shared by both callbacks. *)
Definition callback_body (indata : ndarray) (status : Z) : M unit :=
  when (negb (status =? 0)) (emit (PrintStatus status)) ;;;
  assign (fun self =>
    set_mem_size (_mem_size self + (getsizeof_array rt indata + nbytes indata))
      self) ;;;
  assign (set_prev_ab (Some (copy indata))) ;;;
  assign (fun self =>
    set_soundblock_q (_soundblock_q self ++ [copy indata]) self) ;;;
  assign (fun self =>
    set_rectime (_rectime self + _block_length self)%float self).

(** [_record_callback(indata, frames, time, status)]; [frames] and [time]
    are not read.  [status] is the driver's flag word, true when
    non-zero. *)
Definition _record_callback (indata : ndarray) (status : Z) : M unit :=
  callback_body indata status.

(** [record_playback_callback]: the same bookkeeping, then
    [outdata[:] = indata]; the new contents of [outdata] are returned. *)
Definition record_playback_callback (indata outdata : ndarray) (status : Z)
  : M ndarray :=
  callback_body indata status ;;;
  lift_result (setitem_rows outdata 0 (shape0 outdata) indata).

(** [self._soundblock_q.get(False)] *)
Definition queue_get_nowait : M ndarray :=
  fun self w =>
    match _soundblock_q self with
    | [] => (Raise QueueEmpty, self, w)
    | blk :: rest => (Ok blk, set_soundblock_q rest self, w)
    end.

(** The [for i in range(nblocks)] loop of [_fuse_recording_q], threading
    [data_ptr] and [audio_np]. *)
Fixpoint fuse_loop (iterations : nat) (data_ptr : nat) (audio_np : ndarray)
  : M (nat * ndarray) :=
  match iterations with
  | O => ret (data_ptr, audio_np)
  | S iterations' =>
      let* next :=
        try_except
          (let* blk := queue_get_nowait in
           let* bs := read _block_size in
           let* filled :=
             lift_result
               (setitem_rows audio_np data_ptr (data_ptr + bs) blk) in
           ret (data_ptr + bs + 1, filled)%nat)
          (fun e => emit (PrintExn e) ;;; ret (data_ptr, audio_np)) in
      fuse_loop iterations' (fst next) (snd next)
  end.

(** [_fuse_recording_q]: [None] on an empty queue.  The closing
    [task_done()] only lowers the queue's count of unfinished tasks, which
    every [put] raised before and nothing in the recorder reads. *)
Definition _fuse_recording_q : M (option ndarray) :=
  let* q := read _soundblock_q in
  match q with
  | [] => ret None
  | _ :: _ =>
      let nblocks := length q in
      let* bs := read _block_size in
      let* ch := read _channels in
      let* out := fuse_loop nblocks 0 (zeros ((bs + 1) * nblocks) ch) in
      ret (Some (snd out))
  end.

(** The [for key in sf.available_formats().keys()] search of [_save]. *)
Definition find_format (suffix : string) : option string :=
  List.find (fun key => String.eqb (casefold key) suffix)
    (available_formats rt).

(** The file name that [_save] builds for partition number [ctr]:
    [str(filepath.parent) + filepath.stem + '({})'.format(ctr)
     + filepath.suffix]. *)
Definition partition_name (p : path) (ctr : nat) : string :=
  parent p ++ stem p ++ ("(" ++ format_int ctr ++ ")") ++ suffix p.

Definition fallback_warning (suffix : string) : string :=
  "Can't find available sound format for suffix " ++ suffix ++
  ", using default " ++ fst _default_fformat ++ " instead.".

(** The [else] branch of [_save]: format resolution, fallback,
    partition naming and [sf.write]. *)
Definition save_new_file (p : path) (audio_data : option ndarray) : M unit :=
  let suffix := casefold (last_item (split "." (Pathlib.suffix p))) in
  let* resolved :=
    match find_format suffix with
    | Some key => ret (p, key)
    | None =>
        emit (Warn (fallback_warning suffix)) ;;;
        let* p' := lift_result
                     (with_suffix p ("." ++ fst _default_fformat)) in
        assign (set_filepath (Some p')) ;;;
        let* occupied := ask_world (fun w => is_file w p') in
        if (occupied : bool) then
          (* the message is built with a positional argument for the
             named field [sf]: [str.format] raises KeyError *)
          raise (KeyError "sf")
        else ret (p', snd _default_fformat)
    end in
  let* partition := read _partition in
  let* fp :=
    if (partition : bool) then
      let* ctr := read _partition_ctr in
      assign (set_partition_ctr (ctr + 1)%nat) ;;;
      ret (partition_name (fst resolved) ctr)
    else ret (str (fst resolved)) in
  let* sr := read _samplerate in
  lift_world (sf_write fp audio_data sr (snd resolved)).

(** [_save(audio_data)] *)
Definition _save (audio_data : option ndarray) : M unit :=
  let* fpath := read filepath in
  match fpath with
  | None => ret tt
  | Some p =>
      let* exists_ := ask_world (fun w => is_file w p) in
      let* partition := read _partition in
      if (exists_ && negb partition)%bool then
        lift_world (sf_append (str p) audio_data)
      else save_new_file p audio_data
  end.

(** [_manage_record(now)] *)
Definition _manage_record (now : bool) : M bool :=
  let* mem := read _mem_size in
  let* limit := read max_memory in
  if ((limit <=? mem) || now)%bool then
    let* audio_data := _fuse_recording_q in
    _save audio_data ;;;
    assign (set_mem_size (getsizeof_queue rt)) ;;;
    ret true
  else ret false.

(** [start_recording(filepath, max_time)].  The stream, timer and thread
    objects are created and started; the device is taken to open.  With a
    negative threshold [__init__] never bound [_memory_thread], and reading
    it raises. *)
Definition start_recording (fpath : option path) (max_time : float)
  : M unit :=
  let* recording := read _rec in
  if (recording : bool) then ret tt
  else
    assign (set_filepath fpath) ;;;
    assign (set_rec true) ;;;
    assign (fun self => set_rectime (_rectime self + 0)%float self) ;;;
    let* playback := read _playback in
    when (negb playback) (emit PrintDevice) ;;;
    assign (set_input_stream
              (Some {| stream_playback := playback;
                       stream_active := false |})) ;;;
    when (0 <? max_time)%float
      (assign (set_stop_timer_thread
                 (Some {| timer_interval := max_time; timer_daemon := true;
                          timer_started := false;
                          timer_cancelled := false |}))) ;;;
    let* limit := read max_memory in
    when (0 <=? limit)
      (assign (set_memory_thread
                 (Bound (Some {| thread_daemon := true;
                                 thread_started := false |})))) ;;;
    assign (set_input_stream
              (Some {| stream_playback := playback;
                       stream_active := true |})) ;;;
    let* mthread := read _memory_thread in
    match mthread with
    | Unset => raise (AttributeError "_memory_thread")
    | Bound None => ret tt
    | Bound (Some t) =>
        if thread_started t
        then raise (LibraryError "threads can only be started once")
        else
          assign (set_memory_thread
                    (Bound (Some {| thread_daemon := thread_daemon t;
                                    thread_started := true |})))
    end ;;;
    let* tm := read _stop_timer_thread in
    match tm with
    | None => ret tt
    | Some t =>
        if timer_started t
        then raise (LibraryError "threads can only be started once")
        else
          assign (set_stop_timer_thread
                    (Some {| timer_interval := timer_interval t;
                             timer_daemon := timer_daemon t;
                             timer_started := true;
                             timer_cancelled := timer_cancelled t |}))
    end.

(** [stop_recording()] *)
Definition stop_recording : M unit :=
  let* recording := read _rec in
  if (recording : bool) then
    assign (set_rec false) ;;;
    let* tm := read _stop_timer_thread in
    match tm with
    | None => ret tt
    | Some _ => assign (set_stop_timer_thread None)
    end ;;;
    let* st := read _input_stream in
    match st with
    | None => raise (AttributeError "stop")
    | Some s =>
        assign (set_input_stream
                  (Some {| stream_playback := stream_playback s;
                           stream_active := false |}))
    end ;;;
    let* limit := read max_memory in
    when (0 <=? limit)
      (let* mthread := read _memory_thread in
       match mthread with
       | Unset => raise (AttributeError "_memory_thread")
       | Bound None => raise (AttributeError "join")
       | Bound (Some t) =>
           if thread_started t then ret tt
           else raise (LibraryError "cannot join thread before it is started")
       end) ;;;
    _manage_record true ;;;
    assign (set_prev_ab None) ;;;
    assign (set_rectime 0%float)
  else ret tt.

(** *** Queries *)

Definition is_recording (self : AudioRecorder) : bool := _rec self.

Definition get_sq_mem (self : AudioRecorder) : Z := _mem_size self.

Definition get_rec_time (self : AudioRecorder) : num :=
  if is_recording self then PyFloat (_rectime self) else PyInt (-1).

Definition get_live_audio (self : AudioRecorder) : option ndarray :=
  if (0 <? Z.of_nat (length (_soundblock_q self)))
  then List.last (map Some (_soundblock_q self)) None
  else None.

End Methods.

(** ** What the fusion loop computes *)

Section Fusion.

(** Block size and channel count of the session. *)
Variables bs ch : nat.

(** The rows one loop iteration leaves behind for [blk]: the block,
    broadcast to [(bs, ch)], and the one further row that [data_ptr]
    steps over; nothing when the assignment raises. *)
Definition stored (blk : ndarray) : list (list sample) :=
  match broadcast_to bs ch blk with
  | Some rs => rs ++ [zero_row ch]
  | None => []
  end.

Definition packed (q : list ndarray) : list (list sample) :=
  flat_map stored q.

(** What the [except] branch prints, block by block. *)
Definition complaints (q : list ndarray) : list event :=
  flat_map
    (fun blk =>
       match broadcast_to bs ch blk with
       | Some _ => []
       | None => [PrintExn (ValueError "could not broadcast input array")]
       end) q.

(** The array returned for the queue contents [q]. *)
Definition fused (q : list ndarray) : ndarray :=
  {| shape0 := (bs + 1) * length q;
     shape1 := ch;
     rows := packed q ++
             repeat (zero_row ch) ((bs + 1) * length q - length (packed q)) |}.

(** A block as the driver delivers it for this session. *)
Definition session_block (blk : ndarray) : Prop :=
  shape0 blk = bs /\ shape1 blk = ch /\ well_formed blk.

End Fusion.

(** ** Flushing: the states between the steps of a flush *)

Section Flush.

(** The test of [_manage_record]: [self._mem_size >= self.max_memory or
    now]. *)
Definition flush_due (now : bool) (self : AudioRecorder) : bool :=
  ((max_memory self <=? _mem_size self) || now)%bool.

(** The value [_fuse_recording_q] returns in a given state, and the world
    it leaves (one printed line per block it could not store). *)
Definition drained_audio (self : AudioRecorder) : option ndarray :=
  match _soundblock_q self with
  | [] => None
  | _ :: _ =>
      Some (fused (_block_size self) (_channels self) (_soundblock_q self))
  end.

Definition drained_world (self : AudioRecorder) (w : world) : world :=
  {| files := files w;
     console := console w ++
       complaints (_block_size self) (_channels self) (_soundblock_q self) |}.

(** The object on which [stop_recording] calls [_manage_record(True)]:
    flag cleared, timer cancelled and dropped, stream stopped. *)
Definition stopping (self : AudioRecorder) : AudioRecorder :=
  set_input_stream
    (option_map
       (fun s => {| stream_playback := stream_playback s;
                    stream_active := false |})
       (_input_stream self))
    (set_stop_timer_thread None (set_rec false self)).

(** [stop_recording] gets as far as the flush: there is a stream to stop
    and, with a finite threshold, a started thread to join. *)
Definition can_join (self : AudioRecorder) : bool :=
  match _input_stream self with
  | None => false
  | Some _ =>
      if 0 <=? max_memory self then
        match _memory_thread self with
        | Bound (Some t) => thread_started t
        | _ => false
        end
      else true
  end.

End Flush.

(** ** The callers of the recorder: driver, memory thread, timer, user *)

Section Callers.

Variable rt : runtime.

(** The driver delivering a sequence of blocks, each with its status
    word. *)
Fixpoint deliver (blocks : list (ndarray * Z)) : M unit :=
  match blocks with
  | [] => ret tt
  | (indata, status) :: rest =>
      _record_callback rt indata status ;;; deliver rest
  end.

(** [n] successive [t += block_length] in binary64. *)
Definition accumulate (n : nat) (block_length t : float) : float :=
  Nat.iter n (fun t' => (t' + block_length)%float) t.

(** One call made on the recorder from any of its threads.  [Tick] is one
    pass of [_recording_loop], that is [_manage_record()]; a firing timer
    makes the call [StopRecording]. *)
Inductive call : Type :=
| StartRecording (fpath : option path) (max_time : float)
| StopRecording
| RecordCallback (indata : ndarray) (status : Z)
| RecordPlaybackCallback (indata outdata : ndarray) (status : Z)
| Tick.

Definition perform (c : call) (self : AudioRecorder) (w : world)
  : AudioRecorder * world :=
  match c with
  | StartRecording fpath max_time =>
      after (start_recording fpath max_time) self w
  | StopRecording => after (stop_recording rt) self w
  | RecordCallback indata status =>
      after (_record_callback rt indata status) self w
  | RecordPlaybackCallback indata outdata status =>
      after (record_playback_callback rt indata outdata status) self w
  | Tick => after (_manage_record rt false) self w
  end.

(** The states a recorder can be in: built by [__init__], then any calls
    in any order, while other programs may change the files on disk. *)
Inductive reachable : AudioRecorder -> world -> Prop :=
| reachable_init dev block_len max_memeory partition playback self w :
    init rt dev block_len max_memeory partition playback = Ok self ->
    reachable self w
| reachable_call c self w :
    reachable self w ->
    reachable (fst (perform c self w)) (snd (perform c self w))
| reachable_disk self w fs :
    reachable self w ->
    reachable self {| files := fs; console := console w |}.

End Callers.

(** ** Whole sessions: repeated flushes, the loop, and what stays true *)

Section Sessions.

Variable rt : runtime.


(** [_recording_loop], run for at most [passes] passes of its [while]
    (the [time.sleep] between two passes changes nothing). *)
Fixpoint _recording_loop (passes : nat) : M unit :=
  match passes with
  | O => ret tt
  | S passes' =>
      let* recording := read _rec in
      if (recording : bool) then
        _manage_record rt false ;;; _recording_loop passes'
      else ret tt
  end.

(** [get_metadata()]: the dictionary, as a record of its six entries. *)
Record metadata : Type := mk_metadata {
  md_samplerate : Z;
  md_blocksize : nat;
  md_blocklength : float;
  md_recording : bool;
  md_recording_time : float;
  md_memeory_usage : Z
}.

Definition get_metadata (self : AudioRecorder) : metadata :=
  {| md_samplerate := _samplerate self;
     md_blocksize := _block_size self;
     md_blocklength := _block_length self;
     md_recording := _rec self;
     md_recording_time := _rectime self;
     md_memeory_usage := _mem_size self |}.


(** The settings fixed by [__init__]. *)
Definition settings (self : AudioRecorder)
  : Z * nat * nat * float * bool * Z * bool :=
  (_samplerate self, _channels self, _block_size self, _block_length self,
   _playback self, max_memory self, _partition self).

(** The handles agree with the recording flag: no timer is armed while
    idle, [stop_recording] can stop the stream and join the thread while
    recording, and with a negative threshold [_memory_thread] was never
    bound. *)
Definition handles_consistent (self : AudioRecorder) : Prop :=
  (_rec self = false -> _stop_timer_thread self = None) /\
  (_rec self = true -> can_join self = true) /\
  (max_memory self < 0 -> _memory_thread self = Unset).

(** The extension that [_save] looks up for a target:
    [filepath.suffix.split('.')[-1].casefold()]. *)
Definition extension (p : path) : string :=
  casefold (last_item (split "." (suffix p))).

(** A method that leaves the files on disk as they are, whatever its
    outcome. *)
Definition offline {A} (m : M A) : Prop :=
  forall self w, files (snd (after m self w)) = files w.

End Sessions.

(** ** A concrete installation, for examples *)

Module Studio.

(** A CPython where the queue object takes 48 bytes and an array object
    that does not own its data 128 bytes; a libsndfile with six container
    formats. *)
Definition cpython : runtime :=
  {| getsizeof_queue := 48;
     getsizeof_array := fun _ => 128;
     available_formats := ["AIFF"; "AU"; "FLAC"; "OGG"; "RAW"; "WAV"] |}.

(** A slow device, so that a block of the default length 0.05 s has two
    frames. *)
Definition mic : inputdevice :=
  {| default_samplerate := 40%float; max_input_channels := 2 |}.

(** The block length default of [__init__]: the binary64 nearest 0.05. *)
Definition block_len : float := 0x1.999999999999ap-5%float.

(** The recorder that [AudioRecorder(max_memeory=1000000, partition=...)]
    builds on that device. *)
Definition recorder (partition : bool) : AudioRecorder :=
  {| _samplerate := 40;
     _soundblock_q := [];
     _channels := 1;
     _block_length := block_len;
     _block_size := 2;
     _playback := false;
     max_memory := 1000000;
     _mem_size := 48;
     _memory_thread := Bound None;
     _stop_timer_thread := None;
     _partition := partition;
     _partition_ctr := 0;
     filepath := None;
     _input_stream := None;
     _rec := false;
     _rectime := 0%float;
     _prev_ab := None |}.

(** A mono block of two frames. *)
Definition block (a b : float) : ndarray :=
  {| shape0 := 2; shape1 := 1; rows := [[a]; [b]] |}.

(** A block with three frames: its assignment into a two-row slice
    raises. *)
Definition long_block : ndarray :=
  {| shape0 := 3; shape1 := 1; rows := [[7%float]; [8%float]; [9%float]] |}.

Definition empty_disk : world := {| files := ∅; console := [] |}.

(** Two targets in directory [rec]: one with a supported suffix, one
    without. *)
Definition target : path :=
  {| parent := "rec"; stem := "out"; suffix := ".wav" |}.

Definition odd_target : path :=
  {| parent := "rec"; stem := "out"; suffix := ".xyz" |}.

(** A disk on which [rec/out.wav] already exists, and one on which
    [rec/out.xyz] does. *)
Definition silence : soundfile :=
  {| sf_format := "WAV"; sf_samplerate := 40; sf_frames := [] |}.

Definition taken_disk : world :=
  {| files := {[ "rec/out.wav" := silence ]}; console := [] |}.


(** A session under way: [start_recording(fpath)] on a new recorder, then
    the driver delivers [blocks] with a clean status. *)
Definition session (partition : bool) (fpath : option path)
    (blocks : list ndarray) (disk : world) : AudioRecorder * world :=
  let started :=
    after (start_recording fpath (-1)%float) (recorder partition) disk in
  after (deliver cpython (map (fun blk => (blk, 0)) blocks))
    (fst started) (snd started).

End Studio.

(** ** More recorders and buffers for examples *)

Module Bench.

(** The recorder that [AudioRecorder()] builds with its default threshold
    [max_memeory=-1] on the studio's device. *)
Definition default_recorder : AudioRecorder :=
  {| _samplerate := 40;
     _soundblock_q := [];
     _channels := 1;
     _block_length := Studio.block_len;
     _block_size := 2;
     _playback := false;
     max_memory := -1;
     _mem_size := 48;
     _memory_thread := Unset;
     _stop_timer_thread := None;
     _partition := false;
     _partition_ctr := 0;
     filepath := None;
     _input_stream := None;
     _rec := false;
     _rectime := 0%float;
     _prev_ab := None |}.

(** A target whose suffix is written in capitals. *)
Definition loud_target : path :=
  {| parent := "rec"; stem := "take"; suffix := ".WAV" |}.

(** An output buffer of the driver, two frames of one channel. *)
Definition outdata : ndarray :=
  {| shape0 := 2; shape1 := 1; rows := [[0%float]; [0%float]] |}.

End Bench.

(** ** Frame rules: which statements keep which attribute *)

Section FrameRules.

Context {B : Type} (f : AudioRecorder -> B).

Lemma keeps_ret {A} (a : A) : keeps f (ret a).
Proof. intros self w. reflexivity. Qed.

Lemma keeps_raise {A} (e : exn) : keeps f (@raise A e).
Proof. intros self w. reflexivity. Qed.

Lemma keeps_read {A} (g : AudioRecorder -> A) : keeps f (read g).
Proof. intros self w. reflexivity. Qed.

Lemma keeps_emit (e : event) : keeps f (emit e).
Proof. intros self w. reflexivity. Qed.

Lemma keeps_ask_world {A} (g : world -> A) : keeps f (ask_world g).
Proof. intros self w. reflexivity. Qed.

Lemma keeps_lift_world {A} (g : world -> result A * world) :
  keeps f (lift_world g).
Proof. intros self w. unfold after, lift_world. now destruct (g w). Qed.

Lemma keeps_lift_result {A} (r : result A) : keeps f (lift_result r).
Proof. intros self w. reflexivity. Qed.

Lemma keeps_assign (g : AudioRecorder -> AudioRecorder) :
  (forall self, f (g self) = f self) -> keeps f (assign g).
Proof. intros Hg self w. apply Hg. Qed.

Lemma keeps_bind {A C} (m : M A) (k : A -> M C) :
  keeps f m -> (forall a, keeps f (k a)) -> keeps f (bind m k).
Proof.
  intros Hm Hk self w. specialize (Hm self w).
  unfold after, bind in *.
  destruct (m self w) as [[[a|e] self1] w1]; cbn in *; [|exact Hm].
  rewrite <- Hm. apply (Hk a self1 w1).
Qed.

Lemma keeps_try_except {A} (m : M A) (h : exn -> M A) :
  keeps f m -> (forall e, keeps f (h e)) -> keeps f (try_except m h).
Proof.
  intros Hm Hh self w. specialize (Hm self w).
  unfold after, try_except in *.
  destruct (m self w) as [[[a|e] self1] w1]; cbn in *; [exact Hm|].
  rewrite <- Hm. apply (Hh e self1 w1).
Qed.

Lemma keeps_when (b : bool) (m : M unit) : keeps f m -> keeps f (when b m).
Proof. intros Hm. destruct b; [exact Hm|apply keeps_ret]. Qed.

End FrameRules.

(** Decompose a method into its statements and discharge each with the frame
    rule that fits; an assignment is checked by evaluating the setter. *)
Ltac keeps_step :=
  first
    [ apply keeps_ret | apply keeps_raise | apply keeps_read
    | apply keeps_emit | apply keeps_ask_world | apply keeps_lift_world
    | apply keeps_lift_result
    | apply keeps_assign; intros ?; reflexivity
    | apply keeps_when
    | apply keeps_bind; [|intros ?]
    | apply keeps_try_except; [|intros ?]
    | match goal with
      | |- keeps _ (if ?b then _ else _) => destruct b
      | |- keeps _ (match ?x with _ => _ end) => destruct x
      end ].

Ltac keeps_auto := repeat keeps_step.

(** ** Facts about the fusion loop *)

Section FusionFacts.

Variables bs ch : nat.

Local Open Scope list_scope.

Lemma broadcast_axis_length {A} (want : nat) (l l' : list A) :
  broadcast_axis want l = Some l' -> length l' = want.
Proof.
  unfold broadcast_axis.
  destruct (Nat.eqb (length l) want) eqn:E.
  - intros [= <-]. now apply Nat.eqb_eq.
  - destruct l as [|x [|y l]]; try discriminate.
    intros [= <-]. apply repeat_length.
Qed.

Lemma broadcast_to_length (v : ndarray) (rs : list (list sample)) :
  broadcast_to bs ch v = Some rs -> length rs = bs.
Proof.
  unfold broadcast_to.
  destruct (_ || _)%bool; [|discriminate].
  destruct (broadcast_cols ch (rows v)); [|discriminate].
  apply broadcast_axis_length.
Qed.

Lemma broadcast_cols_exact (rs : list (list sample)) :
  Forall (fun r => length r = ch) rs -> broadcast_cols ch rs = Some rs.
Proof.
  induction 1 as [|r rs Hr _ IH]; simpl; [reflexivity|].
  unfold broadcast_axis. rewrite Hr, Nat.eqb_refl, IH. reflexivity.
Qed.

Lemma broadcast_to_session_block (blk : ndarray) :
  session_block bs ch blk -> broadcast_to bs ch blk = Some (rows blk).
Proof.
  intros (H0 & H1 & Hlen & Hcols).
  unfold broadcast_to. rewrite H1, Nat.eqb_refl. simpl.
  rewrite H1 in Hcols. rewrite (broadcast_cols_exact _ Hcols).
  unfold broadcast_axis. rewrite Hlen, H0, Nat.eqb_refl. reflexivity.
Qed.

Lemma stored_length (blk : ndarray) :
  (length (stored bs ch blk) <= bs + 1)%nat.
Proof.
  unfold stored. destruct (broadcast_to bs ch blk) eqn:E; simpl; [|lia].
  rewrite length_app, (broadcast_to_length _ _ E). simpl. lia.
Qed.

Lemma packed_length (q : list ndarray) :
  (length (packed bs ch q) <= (bs + 1) * length q)%nat.
Proof.
  induction q as [|blk q IH]; simpl; [lia|].
  rewrite length_app. pose proof (stored_length blk). lia.
Qed.

Lemma skipn_repeat {A} (x : A) (n m : nat) :
  skipn n (repeat x m) = repeat x (m - n).
Proof.
  revert m. induction n as [|n IH]; intros [|m]; simpl; auto.
Qed.

(** An in-range slice assignment into the zero tail of the buffer. *)
Lemma setitem_rows_tail (pre : list (list sample)) (N : nat) (blk : ndarray) :
  (length pre + bs <= N)%nat ->
  setitem_rows
    {| shape0 := N; shape1 := ch;
       rows := pre ++ repeat (zero_row ch) (N - length pre) |}
    (length pre) (length pre + bs) blk
  = match broadcast_to bs ch blk with
    | Some rs =>
        Ok {| shape0 := N; shape1 := ch;
              rows := pre ++ rs ++
                      repeat (zero_row ch) (N - length pre - bs) |}
    | None => Raise (ValueError "could not broadcast input array")
    end.
Proof.
  intros Hfit. unfold setitem_rows. simpl.
  rewrite (Nat.min_l (length pre) N) by lia.
  rewrite (Nat.min_l (length pre + bs) N) by lia.
  rewrite (Nat.max_r (length pre) (length pre + bs)) by lia.
  replace (length pre + bs - length pre)%nat with bs by lia.
  destruct (broadcast_to bs ch blk) as [rs|]; [|reflexivity].
  do 3 f_equal.
  - rewrite firstn_app, Nat.sub_diag, firstn_all. simpl.
    now rewrite app_nil_r.
  - f_equal. rewrite skipn_app, skipn_all2 by lia. simpl.
    replace (length pre + bs - length pre)%nat with bs by lia.
    apply skipn_repeat.
Qed.

(** One iteration of the loop on a non-empty queue. *)
Lemma fuse_loop_step (k ptr : nat) (audio blk : ndarray)
    (rest : list ndarray) (self : AudioRecorder) (w : world) :
  fuse_loop (S k) ptr audio (set_soundblock_q (blk :: rest) self) w =
  match setitem_rows audio ptr (ptr + _block_size self) blk with
  | Ok filled =>
      fuse_loop k (ptr + _block_size self + 1) filled
        (set_soundblock_q rest self) w
  | Raise e =>
      fuse_loop k ptr audio (set_soundblock_q rest self)
        (emit_event (PrintExn e) w)
  end.
Proof.
  cbn [fuse_loop].
  unfold bind at 1. unfold try_except, bind, queue_get_nowait, read,
    lift_result, ret, emit. cbn.
  destruct (setitem_rows audio ptr (ptr + _block_size self) blk);
    reflexivity.
Qed.

Lemma fuse_loop_spec (q : list ndarray) :
  forall (pre : list (list sample)) (N : nat) (self : AudioRecorder)
         (w : world),
    _block_size self = bs ->
    (length pre + (bs + 1) * length q <= N)%nat ->
    fuse_loop (length q) (length pre)
      {| shape0 := N; shape1 := ch;
         rows := pre ++ repeat (zero_row ch) (N - length pre) |}
      (set_soundblock_q q self) w
    = (Ok ((length pre + length (packed bs ch q))%nat,
           {| shape0 := N; shape1 := ch;
              rows := pre ++ packed bs ch q ++
                      repeat (zero_row ch)
                        (N - length pre - length (packed bs ch q)) |}),
       set_soundblock_q [] self,
       {| files := files w; console := console w ++ complaints bs ch q |}).
Proof.
  induction q as [|blk rest IH]; intros pre N self w Hbs Hfit.
  - cbn. unfold ret. destruct w as [fs out]. cbn.
    rewrite !Nat.add_0_r, !Nat.sub_0_r, app_nil_r. reflexivity.
  - cbn [length]. rewrite fuse_loop_step, Hbs.
    cbn [length] in Hfit.
    rewrite setitem_rows_tail by lia.
    unfold packed, complaints. cbn [flat_map].
    fold (packed bs ch rest). fold (complaints bs ch rest).
    unfold stored.
    destruct (broadcast_to bs ch blk) as [rs|] eqn:E.
    + pose proof (broadcast_to_length _ _ E) as Hrs.
      specialize (IH (pre ++ rs ++ [zero_row ch]) N self w Hbs).
      rewrite !length_app in IH. cbn [length] in IH. rewrite Hrs in IH.
      replace (length pre + bs + 1)%nat
        with (length pre + (bs + 1))%nat by lia.
      replace (pre ++ rs ++ repeat (zero_row ch) (N - length pre - bs))
        with ((pre ++ rs ++ [zero_row ch]) ++
              repeat (zero_row ch) (N - (length pre + (bs + 1)))).
      2:{ rewrite <- !app_assoc. do 2 f_equal.
          replace (N - length pre - bs)%nat
            with (S (N - (length pre + (bs + 1)))) by lia.
          reflexivity. }
      rewrite IH by lia.
      rewrite !length_app. cbn [length]. rewrite Hrs.
      rewrite <- !app_assoc. cbn [app].
      replace (length pre + (bs + 1 + length (packed bs ch rest)))%nat
        with (length pre + (bs + 1) + length (packed bs ch rest))%nat
        by lia.
      replace (N - length pre - (bs + 1 + length (packed bs ch rest)))%nat
        with (N - (length pre + (bs + 1)) - length (packed bs ch rest))%nat
        by lia.
      reflexivity.
    + specialize (IH pre N self (emit_event
          (PrintExn (ValueError "could not broadcast input array")) w) Hbs).
      rewrite IH by lia.
      unfold emit_event. cbn. rewrite <- app_assoc. reflexivity.
Qed.

(** [_fuse_recording_q] on a non-empty queue. *)
Lemma fuse_recording_q_spec (self : AudioRecorder) (w : world) :
  _block_size self = bs -> _channels self = ch ->
  _soundblock_q self <> [] ->
  _fuse_recording_q self w =
    (Ok (Some (fused bs ch (_soundblock_q self))),
     set_soundblock_q [] self,
     {| files := files w;
        console := console w ++ complaints bs ch (_soundblock_q self) |}).
Proof.
  destruct self as [sr q c bl b pb mm ms mt tm pa pc fp st rc rt pv].
  cbn. intros -> -> Hq.
  destruct q as [|blk rest]; [congruence|].
  unfold _fuse_recording_q, bind, read. cbn [_soundblock_q _block_size _channels].
  pose proof (fuse_loop_spec (blk :: rest) [] ((bs + 1) * length (blk :: rest))
                (mk_AudioRecorder sr (blk :: rest) ch bl bs pb mm ms mt tm
                   pa pc fp st rc rt pv) w eq_refl) as Hloop.
  unfold set_soundblock_q at 1 in Hloop.
  cbn [length app _samplerate _soundblock_q _channels
       _block_length _block_size _playback max_memory _mem_size
       _memory_thread _stop_timer_thread _partition _partition_ctr filepath
       _input_stream _rec _rectime _prev_ab] in Hloop.
  rewrite Nat.sub_0_r in Hloop.
  unfold zeros. cbn [length]. rewrite Hloop by lia.
  reflexivity.
Qed.

Lemma fuse_recording_q_empty (self : AudioRecorder) (w : world) :
  _soundblock_q self = [] -> _fuse_recording_q self w = (Ok None, self, w).
Proof.
  intros Hq. unfold _fuse_recording_q, bind, read. rewrite Hq. reflexivity.
Qed.

End FusionFacts.

(** ** Flushing: [_save], [_manage_record] and [stop_recording] *)

Section FlushFacts.

Variable rt : runtime.

Local Open Scope list_scope.

Lemma set_soundblock_q_same (self : AudioRecorder) :
  set_soundblock_q (_soundblock_q self) self = self.
Proof. destruct self; reflexivity. Qed.

(** [_fuse_recording_q] never raises, always leaves the queue empty, and
    touches no file. *)
Lemma fuse_recording_q_total (self : AudioRecorder) (w : world) :
  _fuse_recording_q self w =
    (Ok (match _soundblock_q self with
         | [] => None
         | _ :: _ =>
             Some (fused (_block_size self) (_channels self)
                     (_soundblock_q self))
         end),
     set_soundblock_q [] self,
     {| files := files w;
        console := console w ++
          complaints (_block_size self) (_channels self)
            (_soundblock_q self) |}).
Proof.
  destruct (_soundblock_q self) as [|blk rest] eqn:Eq.
  - rewrite (fuse_recording_q_empty self w Eq).
    f_equal; [f_equal|].
    + rewrite <- Eq. symmetry. apply set_soundblock_q_same.
    + destruct w; cbn. now rewrite app_nil_r.
  - rewrite (fuse_recording_q_spec (_block_size self) (_channels self)
               self w eq_refl eq_refl) by congruence.
    now rewrite Eq.
Qed.

(** [_save] assigns only [filepath] and [_partition_ctr]. *)
Lemma save_frame (audio : option ndarray) (self : AudioRecorder) (w : world) :
  let self' := snd (fst (_save rt audio self w)) in
  self' = set_partition_ctr (_partition_ctr self')
            (set_filepath (filepath self') self).
Proof.
  destruct self. unfold _save, save_new_file, sf_append, sf_write.
  unfold_monad. cbn.
  repeat case_match; simplify_eq; reflexivity.
Qed.

Lemma manage_record_idle (now : bool) (self : AudioRecorder) (w : world) :
  flush_due now self = false ->
  _manage_record rt now self w = (Ok false, self, w).
Proof.
  unfold flush_due, _manage_record. unfold bind at 1 2, read at 1 2.
  now intros ->.
Qed.

Lemma manage_record_flush (now : bool) (self : AudioRecorder) (w : world) :
  flush_due now self = true ->
  _manage_record rt now self w =
    match _save rt (drained_audio self) (set_soundblock_q [] self)
            (drained_world self w) with
    | (Ok _, self2, w2) =>
        (Ok true, set_mem_size (getsizeof_queue rt) self2, w2)
    | (Raise e, self2, w2) => (Raise e, self2, w2)
    end.
Proof.
  unfold flush_due, _manage_record. unfold bind at 1 2, read at 1 2.
  intros ->. unfold bind at 1. rewrite fuse_recording_q_total.
  fold (drained_audio self). fold (drained_world self w).
  unfold bind at 1.
  destruct (_save rt (drained_audio self) (set_soundblock_q [] self)
              (drained_world self w)) as [[[[]|e] self2] w2]; reflexivity.
Qed.

(** [_save] keeps the queue and the estimate; on success it advances the
    partition counter exactly when it names a partition. *)
Lemma save_keeps_queue (audio : option ndarray) (self : AudioRecorder)
    (w : world) :
  _soundblock_q (snd (fst (_save rt audio self w))) = _soundblock_q self /\
  _mem_size (snd (fst (_save rt audio self w))) = _mem_size self /\
  _rec (snd (fst (_save rt audio self w))) = _rec self /\
  _rectime (snd (fst (_save rt audio self w))) = _rectime self /\
  _prev_ab (snd (fst (_save rt audio self w))) = _prev_ab self.
Proof.
  pose proof (save_frame audio self w) as H. cbn zeta in H.
  rewrite H. repeat split; reflexivity.
Qed.

Lemma save_ok_partition_ctr (audio : option ndarray) (self self' : AudioRecorder)
    (w w' : world) :
  _save rt audio self w = (Ok tt, self', w') ->
  _partition_ctr self' =
    if (_partition self && bool_decide (is_Some (filepath self)))%bool
    then S (_partition_ctr self) else _partition_ctr self.
Proof.
  destruct self as [sr q c bl b pb mm ms mt tm pa pc [p|] st rc rt' pv];
    unfold _save, save_new_file, sf_append, sf_write; unfold_monad; cbn;
    [|destruct pa; intros; simplify_eq; reflexivity].
  destruct pa, (is_file w p); cbn;
    repeat case_match; intros; simplify_eq; cbn in *;
    try reflexivity; try lia; try discriminate.
Qed.

Lemma stop_recording_active (self : AudioRecorder) (w : world) :
  _rec self = true -> can_join self = true ->
  stop_recording rt self w =
    match _manage_record rt true (stopping self) w with
    | (Ok _, s, w') => (Ok tt, set_rectime 0%float (set_prev_ab None s), w')
    | (Raise e, s, w') => (Raise e, s, w')
    end.
Proof.
  destruct self as [sr q c bl b pb mm ms mt tm pa pc fp st rc rt' pv].
  unfold can_join, stopping. intros Hrec Hjoin. cbn in Hrec, Hjoin. subst rc.
  unfold stop_recording.
  remember (_manage_record rt true) as flush eqn:Hflush. clear Hflush.
  unfold_monad. cbn.
  destruct st as [s|]; [|discriminate].
  destruct (0 <=? mm) eqn:Hmm; [destruct mt as [|[t|]]; try discriminate|];
    destruct tm; cbn; rewrite ?Hmm; cbn; rewrite ?Hjoin;
    unfold set_input_stream, set_stop_timer_thread, set_rec; cbn;
    match goal with
    | |- context [flush ?s ?w'] => destruct (flush s w') as [[[[]|e] s'] w'']
    end; reflexivity.
Qed.

Lemma stop_recording_cannot_join (self : AudioRecorder) (w : world) :
  _rec self = true -> can_join self = false ->
  exists e self',
    stop_recording rt self w = (Raise e, self', w) /\
    _rec self' = false /\ _mem_size self' = _mem_size self /\
    _soundblock_q self' = _soundblock_q self.
Proof.
  destruct self as [sr q c bl b pb mm ms mt tm pa pc fp st rc rt' pv].
  unfold can_join. intros Hrec Hjoin. cbn in Hrec, Hjoin. subst rc.
  unfold stop_recording.
  remember (_manage_record rt true) as flush eqn:Hflush. clear Hflush.
  unfold_monad. cbn.
  destruct st as [s|]; [|destruct tm; cbn; eauto 10].
  destruct (0 <=? mm) eqn:Hmm; [|discriminate].
  destruct mt as [|[t|]]; destruct tm; cbn; rewrite ?Hmm; cbn;
    rewrite ?Hjoin; cbn; eauto 10.
Qed.

Lemma stop_recording_idle (self : AudioRecorder) (w : world) :
  _rec self = false -> stop_recording rt self w = (Ok tt, self, w).
Proof.
  intros Hrec. unfold stop_recording. unfold bind at 1, read at 1.
  now rewrite Hrec.
Qed.

Lemma start_recording_active (fpath : option path) (max_time : float)
    (self : AudioRecorder) (w : world) :
  _rec self = true -> start_recording fpath max_time self w = (Ok tt, self, w).
Proof.
  intros Hrec. unfold start_recording. unfold bind at 1, read at 1.
  now rewrite Hrec.
Qed.

End FlushFacts.

(** ** The concrete installation is what [__init__] builds *)


(** ** Fusion: order, gaps and skipped blocks (claims C1 and C10) *)

Section FusionClaims.

Local Open Scope list_scope.

(** On a queue of well-shaped blocks nothing is skipped: every block is
    stored in queue order, each followed by one zero row. *)
Lemma packed_session_blocks (bs ch : nat) (q : list ndarray) :
  Forall (session_block bs ch) q ->
  packed bs ch q = flat_map (fun blk => rows blk ++ [zero_row ch]) q.
Proof.
  induction 1 as [|blk q Hblk _ IH]; [reflexivity|].
  unfold packed in *. cbn [flat_map]. rewrite IH. f_equal.
  unfold stored. now rewrite (broadcast_to_session_block bs ch blk Hblk).
Qed.

Lemma packed_session_blocks_length (bs ch : nat) (q : list ndarray) :
  Forall (session_block bs ch) q ->
  length (packed bs ch q) = ((bs + 1) * length q)%nat.
Proof.
  induction 1 as [|blk q Hblk _ IH]; [cbn; lia|].
  unfold packed in *. cbn [flat_map length]. rewrite length_app, IH.
  unfold stored. rewrite (broadcast_to_session_block bs ch blk Hblk).
  destruct Hblk as (H0 & _ & Hlen & _).
  rewrite length_app, Hlen, H0. cbn [length]. lia.
Qed.

(** What [_fuse_recording_q] returns for a non-empty queue of well-shaped
    blocks: the blocks in FIFO order, and a zero row after each of them. *)
Lemma fuse_session_blocks (self : AudioRecorder) (w : world) :
  _soundblock_q self <> [] ->
  Forall (session_block (_block_size self) (_channels self))
    (_soundblock_q self) ->
  _fuse_recording_q self w =
    (Ok (Some {| shape0 := (_block_size self + 1) * length (_soundblock_q self);
                 shape1 := _channels self;
                 rows := flat_map
                           (fun blk => rows blk ++ [zero_row (_channels self)])
                           (_soundblock_q self) |}),
     set_soundblock_q [] self, w).
Proof.
  intros Hq Hblocks.
  rewrite (fuse_recording_q_spec (_block_size self) (_channels self) self w
             eq_refl eq_refl Hq).
  unfold fused.
  rewrite (packed_session_blocks_length _ _ _ Hblocks), Nat.sub_diag.
  rewrite (packed_session_blocks _ _ _ Hblocks). cbn [repeat].
  rewrite app_nil_r. do 2 f_equal.
  destruct w as [fs out]. cbn. f_equal.
  rewrite <- (app_nil_r out) at 2. f_equal.
  clear Hq. induction Hblocks as [|blk q Hblk _ IH]; [reflexivity|].
  unfold complaints in *. cbn [flat_map].
  now rewrite (broadcast_to_session_block _ _ blk Hblk), IH.
Qed.

(** C1 (the code departs from the claim).  Two blocks of two frames are
    drained: the returned buffer keeps the capture order, but it has six
    rows, not four, because a zero row follows each block; it is not the
    contiguous concatenation of the blocks' samples. *)
Theorem C1_fuse_leaves_a_gap_row_after_each_block :
  let b12 := Studio.block 1 2 in
  let b34 := Studio.block 3 4 in
  let self := set_soundblock_q [b12; b34] (Studio.recorder false) in
  fst (fst (_fuse_recording_q self Studio.empty_disk)) =
    Ok (Some {| shape0 := 6; shape1 := 1;
                rows := [[1]; [2]; [0]; [3]; [4]; [0]]%float |}) /\
  rows (fused (_block_size self) (_channels self) [b12; b34])
    <> rows b12 ++ rows b34 /\
  length (rows (fused (_block_size self) (_channels self) [b12; b34])) = 6%nat /\
  length (rows b12 ++ rows b34) = 4%nat.
Proof.
  cbv zeta. split; [vm_compute; reflexivity|].
  split; [|split; vm_compute; reflexivity].
  intros Heq. apply (f_equal (@length _)) in Heq. vm_compute in Heq.
  discriminate.
Qed.

(** C10.  When the assignment of one queued block raises (its shape does not
    broadcast to a slice of [_block_size] rows and [_channels] columns), the
    block is consumed and a line is printed, the write pointer stays, and the
    blocks behind it are stored directly after the blocks before it.  The
    buffer keeps the row count allocated for all blocks; the rows that were
    never assigned stay zero at the end. *)
Theorem C10_failed_block_is_skipped_without_advancing
    (self : AudioRecorder) (w : world) (before behind : list ndarray)
    (bad : ndarray) :
  _soundblock_q self = before ++ bad :: behind ->
  broadcast_to (_block_size self) (_channels self) bad = None ->
  let bs := _block_size self in
  let ch := _channels self in
  let n := length (before ++ bad :: behind) in
  let kept := packed bs ch before ++ packed bs ch behind in
  exists audio w',
    _fuse_recording_q self w = (Ok (Some audio), set_soundblock_q [] self, w') /\
    shape0 audio = ((bs + 1) * n)%nat /\
    length (rows audio) = ((bs + 1) * n)%nat /\
    rows audio = kept ++ repeat (zero_row ch) ((bs + 1) * n - length kept) /\
    (bs + 1 <= (bs + 1) * n - length kept)%nat /\
    packed bs ch (before ++ bad :: behind) = packed bs ch (before ++ behind) /\
    In (PrintExn (ValueError "could not broadcast input array")) (console w').
Proof.
  intros Hq Hbad bs ch n kept.
  assert (Hne : _soundblock_q self <> []) by (rewrite Hq; now destruct before).
  assert (Hpacked : packed bs ch (before ++ bad :: behind) = kept).
  { unfold packed, kept. rewrite flat_map_app. cbn [flat_map].
    unfold stored at 2. fold bs ch in Hbad. now rewrite Hbad. }
  pose proof (packed_length bs ch before) as Hl1.
  pose proof (packed_length bs ch behind) as Hl2.
  assert (Hkept : (length kept + (bs + 1) <= (bs + 1) * n)%nat).
  { unfold kept, n. rewrite !length_app. cbn [length]. lia. }
  eexists _, _. split.
  { rewrite (fuse_recording_q_spec bs ch self w eq_refl eq_refl Hne).
    reflexivity. }
  rewrite Hq. fold n. cbn [shape0 rows fused console]. rewrite Hpacked.
  repeat split.
  - rewrite length_app, repeat_length. lia.
  - lia.
  - unfold packed, kept. now rewrite flat_map_app.
  - apply in_or_app. right. unfold complaints. apply in_flat_map.
    exists bad. split; [apply in_or_app; right; now left|].
    fold bs ch in Hbad. rewrite Hbad. now left.
Qed.

End FusionClaims.

(** C10 at two good blocks around a three-frame block. *)
Lemma C10_failed_block_witness :
  let self :=
    set_soundblock_q [Studio.block 1 2; Studio.long_block; Studio.block 3 4]
      (Studio.recorder false) in
  exists audio w',
    _fuse_recording_q self Studio.empty_disk
      = (Ok (Some audio), set_soundblock_q [] self, w') /\
    shape0 audio = 9%nat /\
    rows audio = [[1]; [2]; [0]; [3]; [4]; [0]; [0]; [0]; [0]]%float.
Proof.
  cbv zeta.
  destruct (C10_failed_block_is_skipped_without_advancing
              (set_soundblock_q
                 [Studio.block 1 2; Studio.long_block; Studio.block 3 4]
                 (Studio.recorder false))
              Studio.empty_disk [Studio.block 1 2] [Studio.block 3 4]
              Studio.long_block eq_refl eq_refl)
    as (audio & w' & Hrun & Hshape & _ & Hrows & _).
  exists audio, w'. split; [exact Hrun|]. split; [exact Hshape|exact Hrows].
Defined.

(** ** Capture: the bookkeeping of the record callback (claim C7) *)

Section CaptureClaims.

Variable rt : runtime.

Local Open Scope list_scope.

Lemma copy_same (a : ndarray) : copy a = a.
Proof. destruct a; reflexivity. Qed.

(** One delivery, as an equation on the object and the world. *)
Lemma record_callback_step (indata : ndarray) (status : Z)
    (self : AudioRecorder) (w : world) :
  _record_callback rt indata status self w =
    (Ok tt,
     set_rectime (_rectime self + _block_length self)%float
       (set_soundblock_q (_soundblock_q self ++ [copy indata])
          (set_prev_ab (Some (copy indata))
             (set_mem_size
                (_mem_size self + (getsizeof_array rt indata + nbytes indata))
                self))),
     if status =? 0 then w else emit_event (PrintStatus status) w).
Proof.
  unfold _record_callback, callback_body. unfold_monad.
  destruct (status =? 0); reflexivity.
Qed.

Lemma deliver_spec (blocks : list (ndarray * Z)) :
  forall (self : AudioRecorder) (w : world),
    outcome (deliver rt blocks) self w = Ok tt /\
    _rectime (fst (after (deliver rt blocks) self w)) =
      accumulate (length blocks) (_block_length self) (_rectime self) /\
    _soundblock_q (fst (after (deliver rt blocks) self w)) =
      _soundblock_q self ++ map (fun b => copy (fst b)) blocks.
Proof.
  induction blocks as [|b rest IH]; intros self w.
  - cbn. now rewrite app_nil_r.
  - destruct b as [indata status]. unfold outcome, after in *. cbn [deliver]. unfold bind.
    rewrite record_callback_step.
    match goal with
    | |- context [deliver rt rest ?s ?w'] =>
        destruct (IH s w') as (Hok & Htime & Hq);
        destruct (deliver rt rest s w') as [[r s'] w'']
    end.
    cbn [fst snd] in *. subst r. split; [reflexivity|].
    rewrite Htime, Hq. cbn [length map].
    unfold accumulate. rewrite Nat.iter_succ_r. cbn.
    rewrite <- app_assoc. split; reflexivity.
Qed.

(** C7, as the code has it.  Every delivery stores a copy of the block as the
    last captured block, appends a copy to the queue, adds the array's size to
    the estimate and performs one binary64 addition [_rectime +=
    _block_length]; it never raises.  A non-zero status word adds one printed
    line and changes nothing else.  After N deliveries the elapsed time is the
    result of N successive binary64 additions of the block length. *)
Theorem C7_record_callback_bookkeeping (indata : ndarray) (status : Z)
    (self : AudioRecorder) (w : world) (blocks : list (ndarray * Z)) :
  let self' := fst (after (_record_callback rt indata status) self w) in
  let w' := snd (after (_record_callback rt indata status) self w) in
  outcome (_record_callback rt indata status) self w = Ok tt /\
  _prev_ab self' = Some indata /\
  _soundblock_q self' = _soundblock_q self ++ [indata] /\
  _rectime self' = (_rectime self + _block_length self)%float /\
  self' = fst (after (_record_callback rt indata 0) self w) /\
  w' = (if status =? 0 then w else emit_event (PrintStatus status) w) /\
  _rectime (fst (after (deliver rt blocks) self w)) =
    accumulate (length blocks) (_block_length self) (_rectime self) /\
  _soundblock_q (fst (after (deliver rt blocks) self w)) =
    _soundblock_q self ++ map fst blocks.
Proof.
  cbv zeta. unfold outcome, after. rewrite !record_callback_step.
  cbn [fst snd]. rewrite copy_same.
  destruct (deliver_spec blocks self w) as (_ & Htime & Hq).
  unfold after in Htime, Hq. cbn [fst] in Htime, Hq.
  repeat split; try reflexivity; try assumption.
  rewrite Hq. f_equal. apply map_ext. intros b. apply copy_same.
Qed.

End CaptureClaims.

(** C7 as stated fails in binary64: six deliveries at the default block
    length 0.05 leave an elapsed time of 0.3 (0.29999999999999999), while six
    times the block length is 0.30000000000000004. *)
Lemma C7_six_blocks_counterexample :
  let start := Studio.recorder false in
  let blocks := repeat (Studio.block 1 2, 0) 6 in
  let finish := fst (after (deliver Studio.cpython blocks) start Studio.empty_disk) in
  _rectime finish
    <> (_rectime start + float_of_int 6 * _block_length start)%float /\
  (_rectime finish - _rectime start)%float
    <> (float_of_int 6 * _block_length start)%float.
Proof.
  cbv zeta. split; intros Heq.
  - apply (f_equal
             (fun t => PrimFloat.eqb t
                (_rectime (Studio.recorder false)
                 + float_of_int 6 * _block_length (Studio.recorder false))%float))
      in Heq.
    vm_compute in Heq. discriminate.
  - apply (f_equal
             (fun t => PrimFloat.eqb t
                (float_of_int 6 * _block_length (Studio.recorder false))%float))
      in Heq.
    vm_compute in Heq. discriminate.
Qed.

(** ** Life cycle: start, stop and the memory manager (claims C2, C5, C6,
    C8, C9) *)

Section LifecycleClaims.

Variable rt : runtime.

Local Open Scope list_scope.

(** [start_recording] leaves the queue, the estimate, the partition counter
    and the last block alone. *)
Lemma start_recording_frame (fpath : option path) (max_time : float) :
  keeps _mem_size (start_recording fpath max_time) /\
  keeps _soundblock_q (start_recording fpath max_time) /\
  keeps _partition_ctr (start_recording fpath max_time) /\
  keeps _prev_ab (start_recording fpath max_time).
Proof. repeat split; unfold start_recording; keeps_auto. Qed.





(** C8.  [start_recording] on a recorder that is recording and
    [stop_recording] on one that is not return at once: no exception, and
    the object and the world are exactly what they were. *)
Theorem C8_redundant_start_and_stop_are_noops
    (fpath : option path) (max_time : float) (active idle : AudioRecorder)
    (w : world) :
  is_recording active = true ->
  is_recording idle = false ->
  start_recording fpath max_time active w = (Ok tt, active, w) /\
  stop_recording rt idle w = (Ok tt, idle, w).
Proof.
  intros Hactive Hidle. split.
  - now apply start_recording_active.
  - now apply stop_recording_idle.
Qed.

(** C6, as the code has it.  [_manage_record] has three outcomes.  It returns
    False exactly when the estimate is below the threshold and [now] is not
    set, and then nothing changed.  Otherwise the whole queue is fused and
    handed to [_save]; if [_save] returns, the estimate is reset to the
    baseline and the result is True; if [_save] raises, the exception
    propagates, the queue is already drained and the estimate is not
    reset. *)
Theorem C6_manage_record_outcomes (now : bool) (self : AudioRecorder)
    (w : world) :
  let due := max_memory self <= get_sq_mem self \/ now = true in
  let written :=
    _save rt (drained_audio self) (set_soundblock_q [] self)
      (drained_world self w) in
  match _manage_record rt now self w with
  | (Ok true, self', w') =>
      due /\
      (exists saved,
         written = (Ok tt, saved, w') /\
         self' = set_mem_size (getsizeof_queue rt) saved) /\
      _soundblock_q self' = [] /\
      get_sq_mem self' = getsizeof_queue rt
  | (Ok false, self', w') => ~ due /\ self' = self /\ w' = w
  | (Raise e, self', w') =>
      due /\ written = (Raise e, self', w') /\
      _soundblock_q self' = [] /\ get_sq_mem self' = get_sq_mem self
  end.
Proof.
  cbv zeta.
  assert (Hdue : flush_due now self = true <->
                 (max_memory self <= get_sq_mem self \/ now = true)).
  { unfold flush_due, get_sq_mem. rewrite orb_true_iff, Z.leb_le. tauto. }
  destruct (flush_due now self) eqn:E.
  - rewrite (manage_record_flush rt now self w E).
    pose proof (save_keeps_queue rt (drained_audio self)
                  (set_soundblock_q [] self) (drained_world self w))
      as (Hq & Hmem & _).
    destruct (_save rt (drained_audio self) (set_soundblock_q [] self)
                (drained_world self w)) as [[[[]|e] s2] w2]; cbn in *.
    + split; [now apply Hdue|]. split; [now exists s2|].
      split; [exact Hq|reflexivity].
    + split; [now apply Hdue|]. split; [reflexivity|].
      split; [exact Hq|exact Hmem].
  - rewrite (manage_record_idle rt now self w E).
    split; [|split; reflexivity].
    intros H. apply Hdue in H. discriminate.
Qed.

(** C2, as the code has it.  After [stop_recording] on a recording recorder
    the recording flag is false and the elapsed-time query answers -1,
    whether the call returned or raised.  When it returned, exactly one
    forced flush ran: the whole queue was fused and handed to [_save] once,
    the queue is empty and the estimate is the baseline. *)
Theorem C2_stop_recording_flushes_and_goes_idle (self : AudioRecorder)
    (w : world) :
  is_recording self = true ->
  let self' := fst (after (stop_recording rt) self w) in
  let w' := snd (after (stop_recording rt) self w) in
  is_recording self' = false /\
  get_rec_time self' = PyInt (-1) /\
  (outcome (stop_recording rt) self w = Ok tt ->
   (exists saved,
      _save rt (drained_audio self) (set_soundblock_q [] (stopping self))
        (drained_world self w) = (Ok tt, saved, w')) /\
   (exists flushed,
      _manage_record rt true (stopping self) w = (Ok true, flushed, w') /\
      self' = set_rectime 0%float (set_prev_ab None flushed)) /\
   _soundblock_q self' = [] /\
   get_sq_mem self' = getsizeof_queue rt).
Proof.
  intros Hrec. cbv zeta. unfold after, outcome, is_recording in *.
  assert (Hrecstop : _rec (stopping self) = false) by reflexivity.
  destruct (can_join self) eqn:Hjoin.
  - rewrite (stop_recording_active rt self w Hrec Hjoin).
    rewrite (manage_record_flush rt true (stopping self) w)
      by apply orb_true_r.
    pose proof (save_keeps_queue rt (drained_audio (stopping self))
                  (set_soundblock_q [] (stopping self))
                  (drained_world (stopping self) w))
      as (Hq & Hmem & Hr & Ht & Hp).
    change (drained_audio (stopping self)) with (drained_audio self) in *.
    change (drained_world (stopping self) w) with (drained_world self w) in *.
    destruct (_save rt (drained_audio self)
                (set_soundblock_q [] (stopping self))
                (drained_world self w)) as [[[[]|e] s2] w2]; cbn in *.
    + unfold get_rec_time, is_recording. cbn. rewrite Hr.
      split; [reflexivity|]. split; [reflexivity|]. intros _.
      split; [now exists s2|].
      split; [now eexists|split; [exact Hq|reflexivity]].
    + unfold get_rec_time, is_recording. rewrite Hr.
      split; [reflexivity|]. split; [reflexivity|]. discriminate.
  - destruct (stop_recording_cannot_join rt self w Hrec Hjoin)
      as (e & s' & -> & Hr & _). cbn.
    unfold get_rec_time, is_recording. rewrite Hr.
    split; [reflexivity|]. split; [reflexivity|]. discriminate.
Qed.

(** C5, as the code has it.  When [stop_recording] on a recording recorder
    returns, the elapsed time is 0.0 and there is no last block.  The
    partition counter is not reset: it keeps its value, one higher when the
    final flush named a partition, and the next [start_recording] does not
    touch it either. *)
Theorem C5_stop_resets_time_and_last_block_not_the_counter
    (self : AudioRecorder) (w : world) (fpath : option path)
    (max_time : float) :
  is_recording self = true ->
  outcome (stop_recording rt) self w = Ok tt ->
  let self' := fst (after (stop_recording rt) self w) in
  let w' := snd (after (stop_recording rt) self w) in
  _rectime self' = 0%float /\
  _prev_ab self' = None /\
  get_live_audio self' = None /\
  _partition_ctr self' =
    (if (_partition self && bool_decide (is_Some (filepath self)))%bool
     then S (_partition_ctr self) else _partition_ctr self) /\
  _partition_ctr (fst (after (start_recording fpath max_time) self' w'))
    = _partition_ctr self'.
Proof.
  intros Hrec Hok. cbv zeta.
  destruct (start_recording_frame fpath max_time) as (_ & _ & Hctr & _).
  rewrite (Hctr _ _). clear Hctr.
  unfold outcome, after, is_recording in *.
  destruct (can_join self) eqn:Hjoin.
  2:{ destruct (stop_recording_cannot_join rt self w Hrec Hjoin)
        as (e & s' & Hstop & _). rewrite Hstop in Hok. discriminate. }
  rewrite (stop_recording_active rt self w Hrec Hjoin) in Hok |- *.
  rewrite (manage_record_flush rt true (stopping self) w) in Hok |- *
    by apply orb_true_r.
  pose proof (save_keeps_queue rt (drained_audio (stopping self))
                (set_soundblock_q [] (stopping self))
                (drained_world (stopping self) w)) as (Hq & _).
  destruct (_save rt (drained_audio (stopping self))
              (set_soundblock_q [] (stopping self))
              (drained_world (stopping self) w))
    as [[[[]|e] s2] w2] eqn:Hsave; cbn [fst snd] in *; [|discriminate].
  pose proof (save_ok_partition_ctr rt _ _ _ _ _ Hsave) as Hpc.
  repeat split.
  - unfold get_live_audio. cbn. now rewrite Hq.
  - exact Hpc.
Qed.



End LifecycleClaims.

(** C8 at a session under way and at a new recorder. *)
Lemma C8_redundant_calls_witness :
  let s := Studio.session false (Some Studio.target) [Studio.block 1 2]
             Studio.empty_disk in
  start_recording None (-1)%float (fst s) (snd s) = (Ok tt, fst s, snd s) /\
  stop_recording Studio.cpython (Studio.recorder false) (snd s)
    = (Ok tt, Studio.recorder false, snd s).
Proof.
  cbv zeta.
  apply (C8_redundant_start_and_stop_are_noops Studio.cpython None (-1)%float
           (fst (Studio.session false (Some Studio.target) [Studio.block 1 2]
                   Studio.empty_disk))
           (Studio.recorder false)); reflexivity.
Defined.

(** C2 at a session that captured one block for [rec/out.wav]. *)
Lemma C2_stop_recording_witness :
  let s := Studio.session false (Some Studio.target) [Studio.block 1 2]
             Studio.empty_disk in
  let s' := after (stop_recording Studio.cpython) (fst s) (snd s) in
  is_recording (fst s) = true /\
  outcome (stop_recording Studio.cpython) (fst s) (snd s) = Ok tt /\
  is_recording (fst s') = false /\
  get_rec_time (fst s') = PyInt (-1) /\
  _soundblock_q (fst s') = [] /\
  get_sq_mem (fst s') = 48.
Proof.
  cbv zeta.
  pose proof (C2_stop_recording_flushes_and_goes_idle Studio.cpython
                (fst (Studio.session false (Some Studio.target)
                        [Studio.block 1 2] Studio.empty_disk))
                (snd (Studio.session false (Some Studio.target)
                        [Studio.block 1 2] Studio.empty_disk))
                eq_refl) as (Hidle & Htime & Hflush).
  specialize (Hflush eq_refl). destruct Hflush as (_ & _ & Hq & Hmem).
  repeat split; assumption || reflexivity.
Defined.

(** C2 as stated fails when the final [_save] raises.  The target
    [rec/out.xyz] has no supported format and [rec/out.wav] already exists:
    [stop_recording] raises, and the estimate stays at 184 bytes, not at
    the baseline of 48. *)
Lemma C2_stop_raises_counterexample :
  let s := Studio.session false (Some Studio.odd_target) [Studio.block 1 2]
             Studio.taken_disk in
  let s' := after (stop_recording Studio.cpython) (fst s) (snd s) in
  is_recording (fst s) = true /\
  is_ok (outcome (stop_recording Studio.cpython) (fst s) (snd s)) = false /\
  get_sq_mem (fst s') = 184 /\
  getsizeof_queue Studio.cpython = 48 /\
  get_sq_mem (fst s') <> getsizeof_queue Studio.cpython.
Proof.
  cbv zeta. repeat split; try (vm_compute; reflexivity).
  vm_compute. discriminate.
Qed.

(** C6 as stated fails on the same state: the forced flag is set, yet
    [_manage_record] does not return True and does not reset the
    estimate. *)
Lemma C6_flush_raises_counterexample :
  let s := Studio.session false (Some Studio.odd_target) [Studio.block 1 2]
             Studio.taken_disk in
  let s' := after (_manage_record Studio.cpython true) (fst s) (snd s) in
  is_ok (outcome (_manage_record Studio.cpython true) (fst s) (snd s))
    = false /\
  outcome (_manage_record Studio.cpython true) (fst s) (snd s) <> Ok true /\
  get_sq_mem (fst s') = 184 /\
  get_sq_mem (fst s') <> getsizeof_queue Studio.cpython.
Proof.
  cbv zeta. repeat split; try (vm_compute; reflexivity);
    vm_compute; discriminate.
Qed.

(** C5 at a partitioned session that captured one block. *)
Lemma C5_stop_resets_witness :
  let s := Studio.session true (Some Studio.target) [Studio.block 1 2]
             Studio.empty_disk in
  let s' := after (stop_recording Studio.cpython) (fst s) (snd s) in
  is_recording (fst s) = true /\
  outcome (stop_recording Studio.cpython) (fst s) (snd s) = Ok tt /\
  _rectime (fst s') = 0%float /\
  _prev_ab (fst s') = None /\
  _partition_ctr (fst s') = 1%nat.
Proof.
  cbv zeta.
  pose proof (C5_stop_resets_time_and_last_block_not_the_counter
                Studio.cpython
                (fst (Studio.session true (Some Studio.target)
                        [Studio.block 1 2] Studio.empty_disk))
                (snd (Studio.session true (Some Studio.target)
                        [Studio.block 1 2] Studio.empty_disk))
                None (-1)%float eq_refl eq_refl)
    as (Htime & Hprev & _ & Hctr & _).
  repeat split; assumption || reflexivity.
Defined.

(** C5 as stated fails twice.  After a partitioned session the counter is 1,
    not its initial 0.  And when the final [_save] raises, neither the
    elapsed time nor the last block is reset. *)
Lemma C5_counter_survives_counterexample :
  let s := Studio.session true (Some Studio.target) [Studio.block 1 2]
             Studio.empty_disk in
  let s' := after (stop_recording Studio.cpython) (fst s) (snd s) in
  let r := Studio.session false (Some Studio.odd_target) [Studio.block 1 2]
             Studio.taken_disk in
  let r' := after (stop_recording Studio.cpython) (fst r) (snd r) in
  (is_recording (fst s) = true /\
   outcome (stop_recording Studio.cpython) (fst s) (snd s) = Ok tt /\
   _partition_ctr (Studio.recorder true) = 0%nat /\
   _partition_ctr (fst s') = 1%nat) /\
  (is_recording (fst r) = true /\
   _rectime (fst r') = Studio.block_len /\
   _prev_ab (fst r') = Some (Studio.block 1 2)).
Proof.
  cbv zeta. repeat split; vm_compute; reflexivity.
Qed.


(** ** The disk writer: fallback and partition names (claims C3, C4) *)

Section DiskClaims.

Variable rt : runtime.

Local Open Scope list_scope.






End DiskClaims.



(** C3 (the code departs from the claim).  Two flushes of a partitioned
    session with target [rec/out.wav] write the new files [recout(0).wav] and
    [recout(1).wav]: the index is zero-based, increasing and placed between
    stem and suffix, but the directory is glued to the stem without a
    separator.  Nothing is written to [rec/out(0).wav], the target with the
    index inserted. *)
Theorem C3_partition_name_glues_directory_to_stem :
  let audio := Some (Studio.block 1 2) in
  let self := set_filepath (Some Studio.target) (Studio.recorder true) in
  let first := after (_save Studio.cpython audio) self Studio.empty_disk in
  let second := after (_save Studio.cpython audio) (fst first) (snd first) in
  let indexed (k : nat) :=
    str {| parent := parent Studio.target;
           stem := stem Studio.target ++ "(" ++ format_int k ++ ")";
           suffix := suffix Studio.target |} in
  str Studio.target = "rec/out.wav"%string /\
  indexed 0%nat = "rec/out(0).wav"%string /\
  partition_name Studio.target 0 = "recout(0).wav"%string /\
  partition_name Studio.target 1 = "recout(1).wav"%string /\
  console (snd second)
    = [SfWrite "recout(0).wav" "WAV"; SfWrite "recout(1).wav" "WAV"] /\
  _partition_ctr (fst second) = 2%nat /\
  files (snd second) !! indexed 0%nat = None /\
  files (snd second) !! indexed 1%nat = None /\
  is_Some (files (snd second) !! "recout(0).wav"%string) /\
  is_Some (files (snd second) !! "recout(1).wav"%string).
Proof.
  cbv zeta. repeat split; try (vm_compute; reflexivity);
    vm_compute; eexists; reflexivity.
Qed.

(** ** Further properties of the recorder *)

(** *** Which methods keep which attributes *)

Section MethodFrames.

Variable rt : runtime.

Context {B : Type} (f : AudioRecorder -> B).

(** [f] does not read the attribute a setter writes. *)
Hypothesis f_queue : forall v self, f (set_soundblock_q v self) = f self.

Lemma keeps_queue_get_nowait : keeps f queue_get_nowait.
Proof.
  intros self w. unfold after, queue_get_nowait.
  destruct (_soundblock_q self); cbn; [reflexivity|apply f_queue].
Qed.

Lemma keeps_fuse_loop (iterations : nat) :
  forall data_ptr audio_np, keeps f (fuse_loop iterations data_ptr audio_np).
Proof.
  induction iterations as [|n IH]; intros data_ptr audio_np; cbn [fuse_loop].
  - apply keeps_ret.
  - apply keeps_bind; [|intros next; apply IH].
    apply keeps_try_except.
    + apply keeps_bind; [apply keeps_queue_get_nowait|intros blk].
      apply keeps_bind; [apply keeps_read|intros bs].
      apply keeps_bind; [apply keeps_lift_result|intros filled].
      apply keeps_ret.
    + intros e. apply keeps_bind; [apply keeps_emit|intros _].
      apply keeps_ret.
Qed.

Lemma keeps_fuse_recording_q : keeps f _fuse_recording_q.
Proof.
  unfold _fuse_recording_q.
  apply keeps_bind; [apply keeps_read|intros [|blk q]];
    [apply keeps_ret|].
  apply keeps_bind; [apply keeps_read|intros bs].
  apply keeps_bind; [apply keeps_read|intros ch].
  apply keeps_bind; [apply keeps_fuse_loop|intros out]. apply keeps_ret.
Qed.

Hypothesis f_filepath : forall v self, f (set_filepath v self) = f self.
Hypothesis f_partition_ctr :
  forall v self, f (set_partition_ctr v self) = f self.

Lemma keeps_save (audio_data : option ndarray) : keeps f (_save rt audio_data).
Proof.
  unfold _save, save_new_file.
  repeat first
    [ apply keeps_ret | apply keeps_raise | apply keeps_read
    | apply keeps_emit | apply keeps_ask_world | apply keeps_lift_world
    | apply keeps_lift_result
    | apply keeps_assign; intros ?; first [apply f_filepath
                                           | apply f_partition_ctr]
    | apply keeps_bind; [|intros ?]
    | match goal with
      | |- keeps _ (if ?b then _ else _) => destruct b
      | |- keeps _ (match ?x with _ => _ end) => destruct x
      end ].
Qed.

Hypothesis f_mem_size : forall v self, f (set_mem_size v self) = f self.

Lemma keeps_manage_record (now : bool) : keeps f (_manage_record rt now).
Proof.
  unfold _manage_record.
  apply keeps_bind; [apply keeps_read|intros mem].
  apply keeps_bind; [apply keeps_read|intros limit].
  destruct (_ || _)%bool; [|apply keeps_ret].
  apply keeps_bind; [apply keeps_fuse_recording_q|intros audio_data].
  apply keeps_bind; [apply keeps_save|intros _].
  apply keeps_bind; [|intros _; apply keeps_ret].
  apply keeps_assign. intros self. apply f_mem_size.
Qed.

Lemma keeps_recording_loop (passes : nat) : keeps f (_recording_loop rt passes).
Proof.
  induction passes as [|n IH]; cbn [_recording_loop]; [apply keeps_ret|].
  apply keeps_bind; [apply keeps_read|intros [|]]; [|apply keeps_ret].
  apply keeps_bind; [apply keeps_manage_record|intros _; exact IH].
Qed.

Hypothesis f_prev_ab : forall v self, f (set_prev_ab v self) = f self.
Hypothesis f_rectime : forall v self, f (set_rectime v self) = f self.

Lemma keeps_record_callback (indata : ndarray) (status : Z) :
  keeps f (_record_callback rt indata status).
Proof.
  unfold _record_callback, callback_body.
  apply keeps_bind; [apply keeps_when, keeps_emit|intros _].
  apply keeps_bind; [apply keeps_assign; intros self; apply f_mem_size|intros _].
  apply keeps_bind; [apply keeps_assign; intros self; apply f_prev_ab|intros _].
  apply keeps_bind; [apply keeps_assign; intros self; apply f_queue|intros _].
  apply keeps_assign. intros self. apply f_rectime.
Qed.

Lemma keeps_record_playback_callback (indata outdata : ndarray) (status : Z) :
  keeps f (record_playback_callback rt indata outdata status).
Proof.
  unfold record_playback_callback.
  apply keeps_bind; [apply (keeps_record_callback indata status)|intros _].
  apply keeps_lift_result.
Qed.

Hypothesis f_rec : forall v self, f (set_rec v self) = f self.
Hypothesis f_stop_timer_thread :
  forall v self, f (set_stop_timer_thread v self) = f self.
Hypothesis f_input_stream :
  forall v self, f (set_input_stream v self) = f self.

Lemma keeps_stop_recording : keeps f (stop_recording rt).
Proof.
  unfold stop_recording.
  repeat first
    [ apply keeps_manage_record
    | apply keeps_ret | apply keeps_raise | apply keeps_read
    | apply keeps_assign; intros ?;
      first [apply f_rec | apply f_stop_timer_thread | apply f_input_stream
            | apply f_prev_ab | apply f_rectime]
    | apply keeps_when
    | apply keeps_bind; [|intros ?]
    | match goal with
      | |- keeps _ (if ?b then _ else _) => destruct b
      | |- keeps _ (match ?x with _ => _ end) => destruct x
      end ].
Qed.

Hypothesis f_memory_thread :
  forall v self, f (set_memory_thread v self) = f self.

Lemma keeps_start_recording (fpath : option path) (max_time : float) :
  keeps f (start_recording fpath max_time).
Proof.
  unfold start_recording.
  repeat first
    [ apply keeps_ret | apply keeps_raise | apply keeps_read
    | apply keeps_emit
    | apply keeps_assign; intros ?;
      first [apply f_rec | apply f_stop_timer_thread | apply f_input_stream
            | apply f_filepath | apply f_rectime | apply f_memory_thread]
    | apply keeps_when
    | apply keeps_bind; [|intros ?]
    | match goal with
      | |- keeps _ (if ?b then _ else _) => destruct b
      | |- keeps _ (match ?x with _ => _ end) => destruct x
      end ].
Qed.

End MethodFrames.

Section SettingsNeverChange.

Variable rt : runtime.

Lemma perform_keeps_settings (c : call) (self : AudioRecorder) (w : world) :
  settings (fst (perform rt c self w)) = settings self.
Proof.
  destruct c as [fpath max_time| |indata status|indata outdata status|];
    cbn [perform].
  - apply keeps_start_recording; intros; reflexivity.
  - apply keeps_stop_recording; intros; reflexivity.
  - apply keeps_record_callback; intros; reflexivity.
  - apply keeps_record_playback_callback; intros; reflexivity.
  - apply keeps_manage_record; intros; reflexivity.
Qed.

Lemma init_channels (dev : inputdevice) (block_len : float) (max_memeory : Z)
    (partition playback : bool) (self : AudioRecorder) :
  init rt dev block_len max_memeory partition playback = Ok self ->
  (_channels self <= 1)%nat /\ max_memory self = max_memeory /\
  _partition self = partition /\ _playback self = playback /\
  _block_length self = block_len.
Proof.
  unfold init.
  destruct (int_of_float (default_samplerate dev)); [|discriminate].
  destruct (int_of_float _); [|discriminate].
  intros [= <-]. cbn. repeat split. lia.
Qed.

(** X1.  No call ever changes what [__init__] fixed: whatever is called, in
    whatever state, the sample rate, channel count, block size, block
    length, playback flag, threshold and partition flag read the same
    afterwards; and in every reachable state the recorder has at most one
    channel. *)
Theorem X1_settings_are_fixed_at_construction :
  (forall c self w, settings (fst (perform rt c self w)) = settings self) /\
  (forall self w, reachable rt self w -> (_channels self <= 1)%nat).
Proof.
  split; [exact perform_keeps_settings|].
  induction 1 as [dev bl mm pa pb self w Hi|c self w _ IH|self w fs _ IH].
  - now apply (init_channels dev bl mm pa pb).
  - pose proof (perform_keeps_settings c self w) as Hs.
    unfold settings in Hs. injection Hs as _ Hch _ _ _ _ _. now rewrite Hch.
  - exact IH.
Qed.

End SettingsNeverChange.

(** *** The handles follow the recording flag *)

Section Handles.

Variable rt : runtime.

Local Open Scope list_scope.

(** What [start_recording] does to an idle recorder with no timer armed. *)
Lemma start_recording_idle (fpath : option path) (max_time : float)
    (self : AudioRecorder) (w : world) :
  _rec self = false ->
  _stop_timer_thread self = None ->
  let r := outcome (start_recording fpath max_time) self w in
  let self' := fst (after (start_recording fpath max_time) self w) in
  let w' := snd (after (start_recording fpath max_time) self w) in
  _rec self' = true /\
  filepath self' = fpath /\
  _rectime self' = (_rectime self + 0)%float /\
  _input_stream self'
    = Some {| stream_playback := _playback self; stream_active := true |} /\
  files w' = files w /\
  (0 <= max_memory self ->
   r = Ok tt /\
   _memory_thread self'
     = Bound (Some {| thread_daemon := true; thread_started := true |}) /\
   _stop_timer_thread self'
     = (if (0 <? max_time)%float
        then Some {| timer_interval := max_time; timer_daemon := true;
                     timer_started := true; timer_cancelled := false |}
        else None)) /\
  (max_memory self < 0 -> _memory_thread self = Unset ->
   r = Raise (AttributeError "_memory_thread") /\
   _memory_thread self' = Unset).
Proof.
  destruct self as [sr q c bl b pb mm ms mt tm pa pc fp st rc rt' pv].
  cbn [_rec _stop_timer_thread]. intros -> ->. cbv zeta.
  unfold outcome, after, start_recording. unfold_monad. cbn.
  destruct pb; cbn; destruct (0 <? max_time)%float; cbn;
    destruct (0 <=? mm) eqn:Hmm; cbn;
    try (apply Z.leb_le in Hmm); try (apply Z.leb_gt in Hmm);
    try destruct mt as [|[t|]]; cbn;
    try match goal with
        | |- context [thread_started ?t] => destruct (thread_started t); cbn
        end;
    repeat split; try reflexivity; try lia; try discriminate;
    intros; try lia; try discriminate; repeat split; reflexivity.
Qed.

(** Whatever its outcome, [stop_recording] on a recording recorder clears the
    flag and drops the timer. *)
Lemma stop_recording_clears (self : AudioRecorder) (w : world) :
  _rec self = true ->
  _rec (fst (after (stop_recording rt) self w)) = false /\
  _stop_timer_thread (fst (after (stop_recording rt) self w)) = None.
Proof.
  intros Hrec. unfold after. destruct (can_join self) eqn:Hjoin.
  - rewrite (stop_recording_active rt self w Hrec Hjoin).
    pose proof (keeps_manage_record rt _rec
                  ltac:(reflexivity) ltac:(reflexivity) ltac:(reflexivity)
                  ltac:(reflexivity) true (stopping self) w) as Hr.
    pose proof (keeps_manage_record rt _stop_timer_thread
                  ltac:(reflexivity) ltac:(reflexivity) ltac:(reflexivity)
                  ltac:(reflexivity) true (stopping self) w) as Ht.
    unfold after in Hr, Ht.
    destruct (_manage_record rt true (stopping self) w) as [[[b|e] s2] w2];
      cbn in *; now split.
  - destruct self as [sr q c bl b pb mm ms mt tm pa pc fp st rc rt' pv].
    unfold can_join in Hjoin. cbn in Hrec, Hjoin. subst rc.
    unfold stop_recording.
    remember (_manage_record rt true) as flush eqn:Hflush. clear Hflush.
    unfold_monad. cbn.
    destruct st as [s|]; [|destruct tm; cbn; now split].
    destruct (0 <=? mm) eqn:Hmm; [|discriminate].
    destruct mt as [|[t|]]; destruct tm; cbn; rewrite ?Hmm; cbn;
      rewrite ?Hjoin; cbn; now split.
Qed.

Lemma handles_consistent_transfer (self self' : AudioRecorder) :
  _rec self' = _rec self ->
  _stop_timer_thread self' = _stop_timer_thread self ->
  _input_stream self' = _input_stream self ->
  _memory_thread self' = _memory_thread self ->
  max_memory self' = max_memory self ->
  handles_consistent self -> handles_consistent self'.
Proof.
  unfold handles_consistent, can_join.
  intros -> -> -> -> ->. exact (fun H => H).
Qed.

Lemma perform_handles_consistent (c : call) (self : AudioRecorder)
    (w : world) :
  handles_consistent self -> handles_consistent (fst (perform rt c self w)).
Proof.
  intros Hself.
  destruct c as [fpath max_time| |indata status|indata outdata status|];
    cbn [perform].
  - destruct Hself as (Hidle & Hrecording & Hunset).
    destruct (_rec self) eqn:Hrec.
    + unfold after. rewrite (start_recording_active fpath max_time self w Hrec).
      cbn. unfold handles_consistent. rewrite Hrec. auto.
    + pose proof (start_recording_idle fpath max_time self w Hrec
                    (Hidle eq_refl)) as H. cbv zeta in H.
      destruct H as (Hr & _ & _ & Hst & _ & Hfinite & Hnegative).
      pose proof (keeps_start_recording max_memory
                    ltac:(reflexivity) ltac:(reflexivity) ltac:(reflexivity)
                    ltac:(reflexivity) ltac:(reflexivity) ltac:(reflexivity)
                    fpath max_time self w) as Hmax.
      unfold handles_consistent, can_join.
      rewrite Hr, Hst, Hmax. split; [discriminate|]. split.
      * intros _. destruct (0 <=? max_memory self) eqn:Hm; [|reflexivity].
        apply Z.leb_le in Hm. destruct (Hfinite Hm) as (_ & -> & _).
        reflexivity.
      * intros Hneg. now destruct (Hnegative Hneg (Hunset Hneg)).
  - destruct (_rec self) eqn:Hrec.
    + destruct (stop_recording_clears self w Hrec) as (Hr & Ht).
      pose proof (keeps_stop_recording rt max_memory
                    ltac:(reflexivity) ltac:(reflexivity) ltac:(reflexivity)
                    ltac:(reflexivity) ltac:(reflexivity) ltac:(reflexivity)
                    ltac:(reflexivity) ltac:(reflexivity) ltac:(reflexivity)
                    self w) as Hmax.
      pose proof (keeps_stop_recording rt _memory_thread
                    ltac:(reflexivity) ltac:(reflexivity) ltac:(reflexivity)
                    ltac:(reflexivity) ltac:(reflexivity) ltac:(reflexivity)
                    ltac:(reflexivity) ltac:(reflexivity) ltac:(reflexivity)
                    self w) as Hthread.
      destruct Hself as (_ & _ & Hunset).
      unfold handles_consistent. rewrite Hr, Ht, Hmax, Hthread.
      split; [reflexivity|]. split; [discriminate|exact Hunset].
    + unfold after. rewrite (stop_recording_idle rt self w Hrec). exact Hself.
  - apply (handles_consistent_transfer self); [..|exact Hself];
      apply keeps_record_callback; intros; reflexivity.
  - apply (handles_consistent_transfer self); [..|exact Hself];
      apply keeps_record_playback_callback; intros; reflexivity.
  - apply (handles_consistent_transfer self); [..|exact Hself];
      apply keeps_manage_record; intros; reflexivity.
Qed.

Lemma reachable_handles_consistent (self : AudioRecorder) (w : world) :
  reachable rt self w -> handles_consistent self.
Proof.
  induction 1 as [dev bl mm pa pb self w Hi|c self w _ IH|self w fs _ IH].
  - revert Hi. unfold init.
    destruct (int_of_float (default_samplerate dev)); [|discriminate].
    destruct (int_of_float _); [|discriminate].
    intros [= <-]. unfold handles_consistent. cbn.
    split; [reflexivity|]. split; [discriminate|].
    intros Hneg. apply Z.leb_gt in Hneg. now rewrite Hneg.
  - now apply perform_handles_consistent.
  - exact IH.
Qed.

End Handles.

Section HandleProperties.

Variable rt : runtime.



(** X4.  With a negative threshold, which is the default of [__init__], the
    attribute [_memory_thread] is never bound, and [start_recording] on an
    idle reachable recorder raises [AttributeError] when it reads it.  By
    then the flag is set and the stream is running: the recorder is left
    recording although the call failed. *)
Theorem X4_start_recording_raises_without_threshold (fpath : option path)
    (max_time : float) (self : AudioRecorder) (w : world) :
  reachable rt self w ->
  is_recording self = false ->
  max_memory self < 0 ->
  let self' := fst (after (start_recording fpath max_time) self w) in
  outcome (start_recording fpath max_time) self w
    = Raise (AttributeError "_memory_thread") /\
  is_recording self' = true /\
  filepath self' = fpath /\
  _input_stream self'
    = Some {| stream_playback := _playback self; stream_active := true |}.
Proof.
  intros Hreach Hidle Hneg. cbv zeta.
  destruct (reachable_handles_consistent rt self w Hreach)
    as (Htimer & _ & Hunset).
  pose proof (start_recording_idle fpath max_time self w Hidle
                (Htimer Hidle)) as H. cbv zeta in H.
  destruct H as (Hrec & Hpath & _ & Hstream & _ & _ & Hraise).
  destruct (Hraise Hneg (Hunset Hneg)) as (Hret & _).
  repeat split; assumption.
Qed.

End HandleProperties.


Lemma reachable_default_recorder (w : world) :
  reachable Studio.cpython Bench.default_recorder w.
Proof.
  apply (reachable_init Studio.cpython Studio.mic Studio.block_len (-1)
           false false).
  vm_compute. reflexivity.
Qed.






(** X4 at the recorder built with the default arguments. *)
Lemma X4_start_recording_witness :
  let self := Bench.default_recorder in
  let self' :=
    fst (after (start_recording None (-1)%float) self Studio.empty_disk) in
  is_recording self = false /\
  max_memory self < 0 /\
  outcome (start_recording None (-1)%float) self Studio.empty_disk
    = Raise (AttributeError "_memory_thread") /\
  is_recording self' = true.
Proof.
  cbv zeta.
  destruct (X4_start_recording_raises_without_threshold Studio.cpython
              None (-1)%float Bench.default_recorder Studio.empty_disk
              (reachable_default_recorder Studio.empty_disk)
              eq_refl eq_refl) as (Hraise & Hrec & _).
  repeat split; assumption.
Defined.

(** *** The queue, the estimate and the last block along a run *)

Section QueueProperties.

Variable rt : runtime.

Local Open Scope list_scope.










End QueueProperties.



(** *** The fused buffer, block by block *)

Section FusionProperties.

Local Open Scope list_scope.

Lemma skipn_flat_map_chunks {A C} (g : A -> list C) (L : nat) (l : list A)
    (i : nat) :
  Forall (fun a => length (g a) = L) l ->
  skipn (i * L) (flat_map g l) = flat_map g (skipn i l).
Proof.
  intros Hl. revert i. induction Hl as [|a l Ha _ IH]; intros [|i]; cbn;
    try reflexivity.
  - now rewrite skipn_nil.
  - rewrite skipn_app, Ha. rewrite (skipn_all2 (g a)) by lia.
    replace (L + i * L - L)%nat with (i * L)%nat by lia.
    cbn [app]. apply IH.
Qed.

(** X7.  For a non-empty queue of blocks of the session's shape,
    [_fuse_recording_q] returns one array of [(block_size + 1) * n] rows,
    empties the queue and prints nothing.  Block number [i] of the queue
    (from 0, in FIFO order) lies unchanged in rows [i * (block_size + 1)]
    onwards, and the row after it, which the pointer steps over, is zero. *)
Theorem X7_fuse_places_block_i_at_its_offset (self : AudioRecorder)
    (w : world) (i : nat) (blk : ndarray) :
  Forall (session_block (_block_size self) (_channels self))
    (_soundblock_q self) ->
  nth_error (_soundblock_q self) i = Some blk ->
  let bs := _block_size self in
  exists audio,
    _fuse_recording_q self w = (Ok (Some audio), set_soundblock_q [] self, w) /\
    shape0 audio = ((bs + 1) * length (_soundblock_q self))%nat /\
    length (rows audio) = shape0 audio /\
    firstn bs (skipn (i * (bs + 1)) (rows audio)) = rows blk /\
    nth_error (rows audio) (i * (bs + 1) + bs)
      = Some (zero_row (_channels self)).
Proof.
  intros Hblocks Hi bs.
  assert (Hne : _soundblock_q self <> [])
    by (intros Heq; rewrite Heq in Hi; now destruct i).
  eexists. split; [apply (fuse_session_blocks self w Hne Hblocks)|].
  cbn [shape0 rows]. fold bs.
  set (g := fun b : ndarray => rows b ++ [zero_row (_channels self)]).
  assert (Hchunks : Forall (fun b => length (g b) = (bs + 1)%nat)
                      (_soundblock_q self)).
  { eapply List.Forall_impl; [|exact Hblocks].
    intros b (H0 & _ & Hlen & _). unfold g. rewrite length_app, Hlen, H0.
    reflexivity. }
  assert (Hlen : length (flat_map g (_soundblock_q self))
                 = ((bs + 1) * length (_soundblock_q self))%nat).
  { clear Hi Hne Hblocks. induction Hchunks as [|b q Hb _ IH]; cbn; [lia|].
    rewrite length_app, Hb, IH. lia. }
  split; [reflexivity|]. split; [exact Hlen|].
  assert (Hskip : skipn i (_soundblock_q self)
                  = blk :: skipn (S i) (_soundblock_q self)).
  { clear - Hi. revert i Hi.
    induction (_soundblock_q self) as [|b q IH]; intros [|i] Hi;
      cbn in *; try discriminate.
    - now injection Hi as ->.
    - now apply IH. }
  assert (Hblk : length (rows blk) = bs).
  { apply nth_error_In in Hi.
    rewrite List.Forall_forall in Hblocks. destruct (Hblocks blk Hi) as (H0 & _ & Hl & _).
    now rewrite Hl. }
  split.
  - rewrite (skipn_flat_map_chunks g (bs + 1) _ i Hchunks), Hskip.
    cbn [flat_map]. unfold g at 1. rewrite <- app_assoc.
    rewrite firstn_app, Hblk, Nat.sub_diag. cbn [firstn].
    rewrite app_nil_r. rewrite <- Hblk. apply firstn_all.
  - rewrite <- (firstn_skipn (i * (bs + 1)) (flat_map g (_soundblock_q self))).
    rewrite nth_error_app2; rewrite length_firstn, Hlen.
    + rewrite (skipn_flat_map_chunks g (bs + 1) _ i Hchunks), Hskip.
      cbn [flat_map]. unfold g at 1. rewrite <- app_assoc.
      assert (Hin : (i < length (_soundblock_q self))%nat)
        by (apply nth_error_Some; congruence).
      replace (Nat.min (i * (bs + 1)) ((bs + 1) * length (_soundblock_q self)))
        with (i * (bs + 1))%nat by nia.
      replace (i * (bs + 1) + bs - i * (bs + 1))%nat with bs by lia.
      rewrite nth_error_app2 by lia. rewrite Hblk, Nat.sub_diag.
      reflexivity.
    + lia.
Qed.

Lemma broadcast_cols_widths (ch : nat) (rs rs' : list (list sample)) :
  broadcast_cols ch rs = Some rs' -> Forall (fun r => length r = ch) rs'.
Proof.
  revert rs'. induction rs as [|r rs IH]; intros rs'; cbn.
  - intros [= <-]. constructor.
  - destruct (broadcast_axis ch r) as [r'|] eqn:Hr; [|discriminate].
    destruct (broadcast_cols ch rs) as [rs''|]; [|discriminate].
    intros [= <-]. constructor; [|now apply IH].
    now apply broadcast_axis_length in Hr.
Qed.

Lemma broadcast_to_widths (bs ch : nat) (v : ndarray)
    (rs : list (list sample)) :
  broadcast_to bs ch v = Some rs -> Forall (fun r => length r = ch) rs.
Proof.
  unfold broadcast_to. destruct (_ || _)%bool; [|discriminate].
  destruct (broadcast_cols ch (rows v)) as [rs0|] eqn:Hcols; [|discriminate].
  apply broadcast_cols_widths in Hcols.
  unfold broadcast_axis. destruct (Nat.eqb (length rs0) bs).
  - now intros [= <-].
  - destruct rs0 as [|x [|y rs0]]; try discriminate.
    intros [= <-]. apply List.Forall_forall. intros r Hr.
    apply repeat_spec in Hr. subst r. now inversion Hcols.
Qed.

Lemma packed_widths (bs ch : nat) (q : list ndarray) :
  Forall (fun r => length r = ch) (packed bs ch q).
Proof.
  induction q as [|blk q IH]; [constructor|].
  unfold packed in *. cbn [flat_map]. apply Forall_app. split; [|exact IH].
  unfold stored. destruct (broadcast_to bs ch blk) as [rs|] eqn:Hb;
    [|constructor].
  apply Forall_app. split; [now apply (broadcast_to_widths bs ch blk)|].
  constructor; [apply repeat_length|constructor].
Qed.

(** X8.  Whatever the shapes of the queued blocks, [_fuse_recording_q] never
    raises: on a non-empty queue of [n] blocks it returns a rectangular
    array of exactly [(block_size + 1) * n] rows and [channels] columns,
    leaves the queue empty and touches no file; on an empty queue it returns
    [None] and changes nothing. *)
Theorem X8_fuse_always_returns_a_full_size_array (self : AudioRecorder)
    (w : world) :
  let r := outcome _fuse_recording_q self w in
  let self' := fst (after _fuse_recording_q self w) in
  let w' := snd (after _fuse_recording_q self w) in
  _soundblock_q self' = [] /\
  files w' = files w /\
  match _soundblock_q self with
  | [] => r = Ok None /\ self' = self /\ w' = w
  | _ :: _ =>
      exists audio,
        r = Ok (Some audio) /\
        well_formed audio /\
        shape0 audio
          = ((_block_size self + 1) * length (_soundblock_q self))%nat /\
        shape1 audio = _channels self
  end.
Proof.
  cbv zeta. unfold outcome, after.
  destruct (_soundblock_q self) as [|blk q] eqn:Hq.
  - rewrite (fuse_recording_q_empty self w Hq). cbn. auto.
  - rewrite (fuse_recording_q_spec (_block_size self) (_channels self) self w
               eq_refl eq_refl) by congruence.
    cbn [fst snd]. split; [reflexivity|]. split; [reflexivity|].
    rewrite Hq. eexists. split; [reflexivity|].
    split; [|split; reflexivity].
    unfold well_formed, fused. cbn [shape0 shape1 rows]. split.
    + rewrite length_app, repeat_length.
      pose proof (packed_length (_block_size self) (_channels self) (blk :: q)).
      lia.
    + apply Forall_app. split; [apply packed_widths|].
      apply List.Forall_forall. intros r Hr. apply repeat_spec in Hr. subst r.
      apply repeat_length.
Qed.

End FusionProperties.

(** X7 at the second of two queued blocks. *)
Lemma X7_fuse_offset_witness :
  let self :=
    set_soundblock_q [Studio.block 1 2; Studio.block 3 4]
      (Studio.recorder false) in
  exists audio,
    _fuse_recording_q self Studio.empty_disk
      = (Ok (Some audio), set_soundblock_q [] self, Studio.empty_disk) /\
    firstn 2 (skipn 3 (rows audio)) = [[3]; [4]]%float /\
    nth_error (rows audio) 5 = Some [0%float].
Proof.
  cbv zeta.
  assert (Hblocks :
            Forall (session_block 2 1) [Studio.block 1 2; Studio.block 3 4])
    by (repeat constructor).
  destruct (X7_fuse_places_block_i_at_its_offset
              (set_soundblock_q [Studio.block 1 2; Studio.block 3 4]
                 (Studio.recorder false))
              Studio.empty_disk 1 (Studio.block 3 4) Hblocks eq_refl)
    as (audio & Hrun & _ & _ & Hblk & Hgap).
  exists audio. repeat split; assumption.
Defined.

(** *** The disk writer over several flushes *)

Section DiskProperties.

Variable rt : runtime.

Local Open Scope list_scope.








End DiskProperties.



(** *** Whole sessions: what reaches the disk, and when *)

Section SessionProperties.

Variable rt : runtime.

Local Open Scope list_scope.

Lemma save_without_target (audio : option ndarray) (self : AudioRecorder)
    (w : world) :
  filepath self = None -> _save rt audio self w = (Ok tt, self, w).
Proof.
  intros Hnone. unfold _save. unfold bind at 1, read at 1.
  now rewrite Hnone.
Qed.

Lemma offline_ret {A} (a : A) : offline (ret a).
Proof. intros self w. reflexivity. Qed.

Lemma offline_raise {A} (e : exn) : offline (@raise A e).
Proof. intros self w. reflexivity. Qed.

Lemma offline_read {A} (g : AudioRecorder -> A) : offline (read g).
Proof. intros self w. reflexivity. Qed.

Lemma offline_emit (e : event) : offline (emit e).
Proof. intros self w. reflexivity. Qed.

Lemma offline_assign (g : AudioRecorder -> AudioRecorder) :
  offline (assign g).
Proof. intros self w. reflexivity. Qed.

Lemma offline_bind {A C} (m : M A) (k : A -> M C) :
  offline m -> (forall a, offline (k a)) -> offline (bind m k).
Proof.
  intros Hm Hk self w. specialize (Hm self w).
  unfold after, bind in *.
  destruct (m self w) as [[[a|e] self1] w1]; cbn in *; [|exact Hm].
  rewrite <- Hm. apply (Hk a self1 w1).
Qed.

Lemma offline_when (b : bool) (m : M unit) : offline m -> offline (when b m).
Proof. intros Hm. destruct b; [exact Hm|apply offline_ret]. Qed.

Lemma start_recording_files (fpath : option path) (max_time : float)
    (self : AudioRecorder) (w : world) :
  files (snd (after (start_recording fpath max_time) self w)) = files w.
Proof.
  revert self w. change (offline (start_recording fpath max_time)).
  unfold start_recording.
  repeat first
    [ apply offline_ret | apply offline_raise | apply offline_read
    | apply offline_emit | apply offline_assign | apply offline_when
    | apply offline_bind; [|intros ?]
    | match goal with
      | |- offline (if ?b then _ else _) => destruct b
      | |- offline (match ?x with _ => _ end) => destruct x
      end ].
Qed.

Lemma stop_recording_cannot_join_ctr (self : AudioRecorder) (w : world) :
  _rec self = true -> can_join self = false ->
  _partition_ctr (snd (fst (stop_recording rt self w))) = _partition_ctr self.
Proof.
  destruct self as [sr q c bl b pb mm ms mt tm pa pc fp st rc rt' pv].
  unfold can_join. intros Hrec Hjoin. cbn in Hrec, Hjoin. subst rc.
  unfold stop_recording.
  remember (_manage_record rt true) as flush eqn:Hflush. clear Hflush.
  unfold_monad. cbn.
  destruct st as [s|]; [|destruct tm; reflexivity].
  destruct (0 <=? mm) eqn:Hmm; [|discriminate].
  destruct mt as [|[t|]]; destruct tm; cbn; rewrite ?Hmm; cbn;
    rewrite ?Hjoin; reflexivity.
Qed.

Lemma callback_files (indata : ndarray) (status : Z) (self : AudioRecorder)
    (w : world) :
  files (snd (after (_record_callback rt indata status) self w)) = files w.
Proof.
  unfold after. rewrite record_callback_step. cbn [snd].
  destruct (status =? 0); reflexivity.
Qed.

Lemma playback_callback_files (indata outdata : ndarray) (status : Z)
    (self : AudioRecorder) (w : world) :
  files (snd (after (record_playback_callback rt indata outdata status)
                self w)) = files w.
Proof.
  revert self w.
  change (offline (record_playback_callback rt indata outdata status)).
  unfold record_playback_callback. apply offline_bind.
  - intros self w. apply callback_files.
  - intros _ self w. reflexivity.
Qed.

Lemma manage_record_files (now : bool) (self : AudioRecorder) (w : world) :
  files (snd (after (_manage_record rt now) self w)) <> files w ->
  is_Some (filepath self) /\ flush_due now self = true.
Proof.
  unfold after. cbn [snd]. destruct (flush_due now self) eqn:Hdue.
  - destruct (filepath self) as [p|] eqn:Hpath; [intros _; split; eauto|].
    rewrite (manage_record_flush rt now self w Hdue).
    rewrite save_without_target by (destruct self; exact Hpath).
    intros H. now contradiction H.
  - rewrite (manage_record_idle rt now self w Hdue).
    intros H. now contradiction H.
Qed.

Lemma stop_recording_files (self : AudioRecorder) (w : world) :
  files (snd (after (stop_recording rt) self w)) <> files w ->
  is_Some (filepath self) /\ _rec self = true.
Proof.
  unfold after. cbn [snd]. destruct (_rec self) eqn:Hrec.
  - destruct (can_join self) eqn:Hjoin.
    + rewrite (stop_recording_active rt self w Hrec Hjoin).
      pose proof (manage_record_files true (stopping self) w) as Hflush.
      unfold after in Hflush. cbn [snd] in Hflush.
      destruct (_manage_record rt true (stopping self) w) as [[[r|e] s] w'];
        cbn [snd] in *; intros H; destruct (Hflush H) as [Hsome _];
        (split; [|reflexivity]); destruct self; exact Hsome.
    + destruct (stop_recording_cannot_join rt self w Hrec Hjoin)
        as (e & s & -> & _).
      intros H. now contradiction H.
  - rewrite (stop_recording_idle rt self w Hrec).
    intros H. now contradiction H.
Qed.

(** X11.  The files on disk change only through a flush to a target:
    whenever one call on the recorder leaves the disk different, a target
    path was set and the call was either a pass of the memory loop with the
    estimate at or above the threshold, or [stop_recording] on a recording
    session.  The callbacks, [start_recording], a pass below the threshold
    and a redundant stop never write. *)
Theorem X11_only_a_flush_to_a_target_changes_the_disk (c : call)
    (self : AudioRecorder) (w : world) :
  files (snd (perform rt c self w)) <> files w ->
  is_Some (filepath self) /\
  ((c = Tick /\ max_memory self <= _mem_size self) \/
   (c = StopRecording /\ is_recording self = true)).
Proof.
  destruct c as [fpath max_time| |indata status|indata outdata status|];
    cbn [perform]; intros H.
  - contradiction H. apply start_recording_files.
  - destruct (stop_recording_files _ _ H) as [Hsome Hrec].
    split; [exact Hsome|]. right. now split.
  - contradiction H. apply callback_files.
  - contradiction H. apply playback_callback_files.
  - destruct (manage_record_files _ _ _ H) as [Hsome Hdue].
    split; [exact Hsome|]. left. split; [reflexivity|].
    unfold flush_due in Hdue. rewrite orb_false_r in Hdue.
    now apply Z.leb_le.
Qed.


Lemma save_partition_ctr_bounds (audio : option ndarray)
    (self : AudioRecorder) (w : world) :
  let self' := snd (fst (_save rt audio self w)) in
  (_partition_ctr self <= _partition_ctr self' <= S (_partition_ctr self))%nat
  /\ (_partition self = false -> _partition_ctr self' = _partition_ctr self).
Proof.
  destruct self as [sr q c bl b pb mm ms mt tm pa pc [p|] st rc rt' pv];
    unfold _save, save_new_file, sf_append, sf_write; unfold_monad; cbn;
    [|split; [lia|reflexivity]].
  destruct pa; repeat case_match; simplify_eq; cbn;
    (split; [lia|intros; first [reflexivity|discriminate]]).
Qed.

Lemma manage_record_partition_ctr (now : bool) (self : AudioRecorder)
    (w : world) :
  let self' := fst (after (_manage_record rt now) self w) in
  (_partition_ctr self <= _partition_ctr self' <= S (_partition_ctr self))%nat
  /\ (_partition self = false -> _partition_ctr self' = _partition_ctr self).
Proof.
  cbv zeta. unfold after. cbn [fst]. destruct (flush_due now self) eqn:Hdue.
  - rewrite (manage_record_flush rt now self w Hdue).
    pose proof (save_partition_ctr_bounds (drained_audio self)
                  (set_soundblock_q [] self) (drained_world self w)) as H.
    cbv zeta in H.
    destruct (_save rt (drained_audio self) (set_soundblock_q [] self)
                (drained_world self w)) as [[[[]|e] s2] w2];
      cbn [fst snd] in *; destruct self; exact H.
  - rewrite (manage_record_idle rt now self w Hdue). cbn. split; [lia|auto].
Qed.

Lemma stop_recording_partition_ctr (self : AudioRecorder) (w : world) :
  let self' := fst (after (stop_recording rt) self w) in
  (_partition_ctr self <= _partition_ctr self' <= S (_partition_ctr self))%nat
  /\ (_partition self = false -> _partition_ctr self' = _partition_ctr self).
Proof.
  cbv zeta. unfold after. cbn [fst]. destruct (_rec self) eqn:Hrec.
  - destruct (can_join self) eqn:Hjoin.
    + rewrite (stop_recording_active rt self w Hrec Hjoin).
      pose proof (manage_record_partition_ctr true (stopping self) w) as H.
      cbv zeta in H. unfold after in H. cbn [fst] in H.
      destruct (_manage_record rt true (stopping self) w) as [[[r|e] s] w'];
        cbn [fst snd] in *; destruct self; exact H.
    + rewrite (stop_recording_cannot_join_ctr self w Hrec Hjoin).
      split; [lia|auto].
  - rewrite (stop_recording_idle rt self w Hrec). cbn. split; [lia|auto].
Qed.

End SessionProperties.

(** *** The partition counter and the memory loop *)

Section CounterAndLoop.

Variable rt : runtime.

Local Open Scope list_scope.

Lemma perform_partition_ctr (c : call) (self : AudioRecorder) (w : world) :
  let self' := fst (perform rt c self w) in
  (_partition_ctr self <= _partition_ctr self' <= S (_partition_ctr self))%nat
  /\ (_partition self = false -> _partition_ctr self' = _partition_ctr self).
Proof.
  assert (Hsame : forall self' : AudioRecorder,
            _partition_ctr self' = _partition_ctr self ->
            (_partition_ctr self <= _partition_ctr self'
             <= S (_partition_ctr self))%nat /\
            (_partition self = false ->
             _partition_ctr self' = _partition_ctr self))
    by (intros self' ->; split; [lia|reflexivity]).
  destruct c as [fpath max_time| |indata status|indata outdata status|];
    cbn [perform]; cbv zeta.
  - apply Hsame. apply start_recording_frame.
  - apply stop_recording_partition_ctr.
  - apply Hsame. apply keeps_record_callback; intros; reflexivity.
  - apply Hsame. apply keeps_record_playback_callback; intros; reflexivity.
  - apply manage_record_partition_ctr.
Qed.

(** X13.  The partition counter only ever counts up, by at most one per
    call on the recorder, and a recorder built with partitioning off never
    moves it: in every state reachable from [__init__] with
    [_partition = False] the counter is still 0. *)
Theorem X13_partition_counter_counts_up_only_when_partitioning :
  (forall c self w,
     (_partition_ctr self <= _partition_ctr (fst (perform rt c self w))
      <= S (_partition_ctr self))%nat) /\
  (forall self w,
     reachable rt self w ->
     _partition self = false -> _partition_ctr self = 0%nat).
Proof.
  split.
  - intros c self w. apply perform_partition_ctr.
  - induction 1 as [dev bl mm pa pb self w Hi|c self w _ IH|self w fs _ IH];
      intros Hpart.
    + revert Hi. unfold init.
      destruct (int_of_float (default_samplerate dev)); [|discriminate].
      destruct (int_of_float _); [|discriminate].
      now intros [= <-].
    + pose proof (perform_keeps_settings rt c self w) as Hset.
      assert (Hpart0 : _partition self = false).
      { unfold settings in Hset. injection Hset as _ _ _ _ _ _ Hp.
        now rewrite <- Hp. }
      destruct (perform_partition_ctr c self w) as [_ Hsame].
      cbv zeta in Hsame. rewrite (Hsame Hpart0). now apply IH.
    + now apply IH.
Qed.



End CounterAndLoop.

(** X11 at a studio session stopped with one block queued: the disk
    changes, and a target was set. *)
Lemma X11_disk_change_witness :
  let s := Studio.session false (Some Studio.target) [Studio.block 1 2]
             Studio.empty_disk in
  files (snd (perform Studio.cpython StopRecording (fst s) (snd s)))
  <> files (snd s) /\
  is_Some (filepath (fst s)).
Proof.
  cbv zeta.
  assert (Hchange :
    files (snd (perform Studio.cpython StopRecording
                  (fst (Studio.session false (Some Studio.target)
                          [Studio.block 1 2] Studio.empty_disk))
                  (snd (Studio.session false (Some Studio.target)
                          [Studio.block 1 2] Studio.empty_disk))))
    <> files (snd (Studio.session false (Some Studio.target)
                     [Studio.block 1 2] Studio.empty_disk))).
  { intros H. apply (f_equal (fun m => m !! "rec/out.wav")) in H.
    vm_compute in H. discriminate H. }
  split; [exact Hchange|].
  destruct (X11_only_a_flush_to_a_target_changes_the_disk Studio.cpython
              StopRecording _ _ Hchange) as [Hsome _].
  exact Hsome.
Defined.



(** *** The playback callback and the suffix lookup *)

Section CallbackAndSuffix.

Variable rt : runtime.

Local Open Scope list_scope.

(** [outdata[:] = indata] on a whole array. *)
Lemma setitem_whole (outdata indata : ndarray) :
  well_formed outdata ->
  setitem_rows outdata 0 (shape0 outdata) indata =
    match broadcast_to (shape0 outdata) (shape1 outdata) indata with
    | Some rs =>
        Ok {| shape0 := shape0 outdata; shape1 := shape1 outdata;
              rows := rs |}
    | None => Raise (ValueError "could not broadcast input array")
    end.
Proof.
  intros [Hlen _]. unfold setitem_rows. cbn [Nat.min Nat.max].
  rewrite Nat.min_id, Nat.sub_0_r.
  destruct (broadcast_to (shape0 outdata) (shape1 outdata) indata);
    [|reflexivity].
  cbn [firstn app]. rewrite skipn_all2 by lia. now rewrite app_nil_r.
Qed.

(** X15.  The playback callback does the whole bookkeeping of the record
    callback before it copies the block to the output: the recorder and the
    world end up exactly as after [_record_callback], whether the copy
    succeeds or not.  The call returns the output buffer filled with the
    input broadcast to the buffer's shape, and raises (with the block
    already queued and counted) when the input cannot be broadcast; an
    input of the buffer's own shape is copied row for row. *)
Theorem X15_playback_callback_records_before_it_copies
    (indata outdata : ndarray) (status : Z) (self : AudioRecorder)
    (w : world) :
  well_formed outdata ->
  let played := record_playback_callback rt indata outdata status in
  after played self w = after (_record_callback rt indata status) self w /\
  outcome played self w =
    match broadcast_to (shape0 outdata) (shape1 outdata) indata with
    | Some rs =>
        Ok {| shape0 := shape0 outdata; shape1 := shape1 outdata;
              rows := rs |}
    | None => Raise (ValueError "could not broadcast input array")
    end /\
  (session_block (shape0 outdata) (shape1 outdata) indata ->
   outcome played self w =
     Ok {| shape0 := shape0 outdata; shape1 := shape1 outdata;
           rows := rows indata |}).
Proof.
  intros Hwf. cbv zeta.
  assert (Hrun :
    record_playback_callback rt indata outdata status self w =
      (setitem_rows outdata 0 (shape0 outdata) indata,
       fst (after (_record_callback rt indata status) self w),
       snd (after (_record_callback rt indata status) self w))).
  { unfold record_playback_callback, after. unfold bind.
    change (callback_body rt indata status)
      with (_record_callback rt indata status).
    rewrite record_callback_step. reflexivity. }
  unfold outcome at 1 2. unfold after at 1. rewrite Hrun. cbn [fst snd].
  rewrite (setitem_whole outdata indata Hwf).
  split; [now destruct (after (_record_callback rt indata status) self w)|].
  split; [reflexivity|].
  intros Hblk. now rewrite (broadcast_to_session_block _ _ _ Hblk).
Qed.

Lemma casefold_ascii_dot (c : ascii) :
  Ascii.eqb (casefold_ascii c) "." = Ascii.eqb c ".".
Proof. destruct c as [[] [] [] [] [] [] [] []]; reflexivity. Qed.

Lemma split_casefold (s : string) :
  split "." (casefold s) = map casefold (split "." s).
Proof.
  induction s as [|c s IH]; [reflexivity|].
  cbn [casefold split]. rewrite casefold_ascii_dot, IH.
  destruct (Ascii.eqb c "."); [reflexivity|].
  destruct (split "." s); reflexivity.
Qed.

Lemma last_item_casefold (l : list string) :
  last_item (map casefold l) = casefold (last_item l).
Proof.
  unfold last_item. induction l as [|a [|b l] IH]; try reflexivity.
  exact IH.
Qed.

Lemma split_no_dot (s : string) :
  (forall c, In c (list_ascii_of_string s) -> c <> "."%char) ->
  split "." s = [s].
Proof.
  induction s as [|c s IH]; intros Hdot; [reflexivity|].
  cbn [split]. rewrite IH by (intros d Hd; apply Hdot; now right).
  destruct (Ascii.eqb_spec c "."); [|reflexivity].
  exfalso. apply (Hdot c); [now left|assumption].
Qed.

(** The extension is read off the case-folded suffix. *)
Lemma extension_casefold (p : path) :
  extension p = last_item (split "." (casefold (suffix p))).
Proof.
  unfold extension. now rewrite split_casefold, last_item_casefold.
Qed.

(** X16.  The suffix of the target selects the format without regard to
    letter case: when the suffix is a dot followed by the name of an
    available format, in any mix of upper and lower case, the lookup in
    [_save] finds an available format whose name equals it up to case (so
    no warning is issued and the path is not rewritten); and two targets
    whose suffixes differ only in case resolve to the same format. *)
Theorem X16_suffix_selects_the_format_in_any_letter_case (p : path)
    (key : string) :
  In key (available_formats rt) ->
  (forall c, In c (list_ascii_of_string key) -> c <> "."%char) ->
  casefold (suffix p) = casefold ("." ++ key) ->
  (exists key',
     find_format rt (extension p) = Some key' /\
     In key' (available_formats rt) /\
     casefold key' = casefold key) /\
  (forall p',
     casefold (suffix p') = casefold (suffix p) ->
     find_format rt (extension p') = find_format rt (extension p)).
Proof.
  intros Hin Hdot Hsuffix. split.
  - assert (Hext : extension p = casefold key).
    { rewrite extension_casefold, Hsuffix, split_casefold, last_item_casefold.
      f_equal.
      change (split "." ("." ++ key)%string) with ("" :: split "." key).
      now rewrite (split_no_dot key Hdot). }
    rewrite Hext. unfold find_format.
    destruct (List.find
                (fun k => String.eqb (casefold k) (casefold key))
                (available_formats rt)) as [key'|] eqn:Hfind.
    + apply List.find_some in Hfind as [Hin' Heq].
      apply String.eqb_eq in Heq. now exists key'.
    + exfalso. pose proof (List.find_none _ _ Hfind key Hin) as Hno.
      cbn in Hno. now rewrite String.eqb_refl in Hno.
  - intros p' Hsame. now rewrite !extension_casefold, Hsame.
Qed.

End CallbackAndSuffix.

(** X15 at the bench: a block played into a buffer of its own shape. *)
Lemma X15_playback_callback_witness :
  outcome (record_playback_callback Studio.cpython (Studio.block 1 2)
             Bench.outdata 0)
    (Studio.recorder false) Studio.empty_disk
  = Ok (Studio.block 1 2).
Proof.
  destruct (X15_playback_callback_records_before_it_copies Studio.cpython
              (Studio.block 1 2) Bench.outdata 0 (Studio.recorder false)
              Studio.empty_disk ltac:(repeat constructor))
    as (_ & _ & Hcopy).
  apply Hcopy. repeat constructor.
Defined.

(** X16 at the studio: [.wav] and [.WAV] both select the format [WAV]. *)
Lemma X16_suffix_witness :
  find_format Studio.cpython (extension Studio.target) = Some "WAV" /\
  find_format Studio.cpython (extension Bench.loud_target)
  = find_format Studio.cpython (extension Studio.target).
Proof.
  destruct (X16_suffix_selects_the_format_in_any_letter_case Studio.cpython
              Studio.target "WAV")
    as [_ Hsame].
  - vm_compute. tauto.
  - intros c Hc. vm_compute in Hc.
    destruct Hc as [<-|[<-|[<-|[]]]]; discriminate.
  - reflexivity.
  - split; [reflexivity|]. apply Hsame. reflexivity.
Defined.

(** *** Sessions without a target *)

Section CaptureOnly.

Variable rt : runtime.

Local Open Scope list_scope.


End CaptureOnly.

